(** * SharedDataContainer: the single-producer / multiple-consumer
      latest-value container of shared_memory_ipc

    The development embeds [SharedDataContainer] (file
    [shared_data_container.h], and the inline copy in [src/main.cpp])
    and the argument check of [main] as executable Rocq functions and proves
    the properties of the container that hold when its operations run one
    after the other (no interleaving inside an operation).

    Data: [current_slot_id_] is a C++ [int], slot indices and handles are
    [int]s, the state word [used_by] is a [uint32_t]; all are [Z] here, with
    the 32-bit complement written out.  The slot array is a list indexed
    with stdpp's lookup; an access outside the array is [Undefined]. *)

From Stdlib Require Import ZArith Lia String.
From stdpp Require Import base list.

Open Scope Z_scope.

(** ** Data model *)

(** [struct Message { uint64_t val; }] *)
Record Message : Type := mkMessage { val : Z }.

(** [struct Slot { std::atomic<uint32_t> used_by; Message message; }] *)
Record Slot : Type := mkSlot { used_by : Z; message : Message }.

(** [class SharedDataContainer]: [current_slot_id_] and the array [slots]
    (of [Configuration::number_of_processes + 1] elements). *)
Record SharedDataContainer : Type := mkContainer {
  current_slot_id_ : Z;
  slots : list Slot
}.

(** [Slot::used_by_writer = 1 << 31] *)
Definition used_by_writer : Z := Z.shiftl 1 31.

(** [~x] on a [uint32_t] (also the conversion of the [int] [~(1 << p)] to
    [uint32_t] at the call of [atomic_fetch_and]). *)
Definition not32 (x : Z) : Z := Z.lnot x mod 2 ^ 32.

(** All members zero: the state of a freshly created shared memory region. *)
Definition zero_slot : Slot := mkSlot 0 (mkMessage 0).

Definition zero_container (number_of_processes : nat) : SharedDataContainer :=
  mkContainer 0 (replicate (S number_of_processes) zero_slot).

(** The messages of the four [std::runtime_error]s the container throws. *)
Definition EMPTY : string :=
  "ReaderLock should not be called for empty container".
Definition DOUBLE_LOCK : string :=
  "ReaderLockDouble lock by the same process".
Definition NOT_LOCKED : string :=
  "Attempt to unlock not locked slot".
Definition NO_FREE_SLOT : string :=
  "No free slots for writer".

(** ** Member functions as state transformers *)

(** What a call does to the container: it returns, it throws (the container
    is as the throw left it), or its behaviour is undefined (array access out
    of bounds, shift count out of range, read of an uninitialised local).
    [Spins] is a retry loop that has used up its iterations. *)
Inductive outcome (A : Type) : Type :=
| Returns (a : A) (c : SharedDataContainer)
| Throws (what : string) (c : SharedDataContainer)
| Undefined
| Spins.
Arguments Returns {A} a c.
Arguments Throws {A} what c.
Arguments Undefined {A}.
Arguments Spins {A}.

Definition M (A : Type) : Type := SharedDataContainer -> outcome A.

Definition ret {A} (a : A) : M A := fun c => Returns a c.

Definition bind {A B} (m : M A) (f : A -> M B) : M B :=
  fun c =>
    match m c with
    | Returns a c' => f a c'
    | Throws what c' => Throws what c'
    | Undefined => Undefined
    | Spins => Spins
    end.

Definition throw {A} (what : string) : M A := fun c => Throws what c.
Definition undefined {A} : M A := fun _ => Undefined.

Notation "x <- m ;; k" := (bind m (fun x => k))
  (at level 100, m at next level, right associativity).
Notation "m ;;; k" := (bind m (fun _ => k))
  (at level 100, right associativity).

(** [slots[i]] for an [int] index. *)
Definition slot_at (c : SharedDataContainer) (i : Z) : option Slot :=
  if i <? 0 then None else slots c !! Z.to_nat i.

Definition with_used_by (f : Z -> Z) (s : Slot) : Slot :=
  mkSlot (f (used_by s)) (message s).

Definition with_message (m : Message) (s : Slot) : Slot :=
  mkSlot (used_by s) m.

Definition alter_slot (f : Slot -> Slot) (i : Z) (c : SharedDataContainer)
  : SharedDataContainer :=
  mkContainer (current_slot_id_ c) (alter f (Z.to_nat i) (slots c)).

(** Reads and writes of the members. *)
Definition load_current : M Z := fun c => Returns (current_slot_id_ c) c.

Definition store_current (v : Z) : M unit :=
  fun c => Returns tt (mkContainer v (slots c)).

Definition size_slots : M nat := fun c => Returns (length (slots c)) c.

Definition load_used_by (i : Z) : M Z :=
  fun c =>
    match slot_at c i with
    | Some s => Returns (used_by s) c
    | None => Undefined
    end.

Definition load_message (i : Z) : M Message :=
  fun c =>
    match slot_at c i with
    | Some s => Returns (message s) c
    | None => Undefined
    end.

Definition store_message (i : Z) (m : Message) : M unit :=
  fun c =>
    match slot_at c i with
    | Some _ => Returns tt (alter_slot (with_message m) i c)
    | None => Undefined
    end.

(** [std::atomic_fetch_and(&slots[i].used_by, mask)] *)
Definition atomic_fetch_and (i : Z) (mask : Z) : M Z :=
  fun c =>
    match slot_at c i with
    | Some s => Returns (used_by s)
                  (alter_slot (with_used_by (fun u => Z.land u mask)) i c)
    | None => Undefined
    end.

(** [std::atomic_fetch_or(&slots[i].used_by, mask)] *)
Definition atomic_fetch_or (i : Z) (mask : Z) : M Z :=
  fun c =>
    match slot_at c i with
    | Some s => Returns (used_by s)
                  (alter_slot (with_used_by (fun u => Z.lor u mask)) i c)
    | None => Undefined
    end.

(** [atomic_compare_exchange_weak(&slots[i].used_by, &expected, desired)]
    with no other thread running: the exchange happens when the word holds
    [expected].  (A spurious failure of the weak form re-runs the loop body
    on the same container and is not modelled.) *)
Definition atomic_compare_exchange (i : Z) (expected desired : Z) : M bool :=
  fun c =>
    match slot_at c i with
    | Some s =>
        if used_by s =? expected
        then Returns true (alter_slot (with_used_by (fun _ => desired)) i c)
        else Returns false c
    | None => Undefined
    end.

(** [1 << process_index], converted to [uint32_t]; the shift is undefined for
    a count outside [0, 32). *)
Definition shl1 (process_index : Z) : M Z :=
  if (0 <=? process_index) && (process_index <? 32)
  then ret (Z.shiftl 1 process_index)
  else undefined.

(** [for (int i = start, num = ...; i < num; ++i) body(i)], [num - start]
    iterations. *)
Fixpoint for_loop (i : Z) (iterations : nat) (body : Z -> M unit) : M unit :=
  match iterations with
  | O => ret tt
  | S n => body i ;;; for_loop (i + 1) n body
  end.

(** [bool IsEmpty() const] *)
Definition IsEmpty : M bool :=
  id <- load_current ;;
  ret (id =? 0).

(** The [do { ... } while (!atomic_compare_exchange_weak(...))] loop of
    [ReaderLock].  [check_double] tells the two copies of the function
    apart: [shared_data_container.h] throws on a set reader bit, the copy in
    [src/main.cpp] has no such test.  [new_value] is the local variable of
    that name, [None] while it is uninitialised; [continue] jumps to the loop
    condition, which reads it. *)
Fixpoint ReaderLock_loop (check_double : bool) (iterations : nat)
    (process_index : Z) (new_value : option Z) : M Z :=
  match iterations with
  | O => fun _ => Spins
  | S n =>
      id <- load_current ;;
      let slot_index := id - 1 in
      current_value <- load_used_by slot_index ;;
      let condition (new_value : option Z) : M Z :=
        match new_value with
        | None => undefined
        | Some desired =>
            exchanged <- atomic_compare_exchange slot_index current_value desired ;;
            if exchanged : bool then ret slot_index
            else ReaderLock_loop check_double n process_index new_value
        end in
      if Z.land current_value used_by_writer =? 0 then
        condition new_value
      else
        bit <- shl1 process_index ;;
        if check_double && negb (Z.land current_value bit =? 0) then
          throw DOUBLE_LOCK
        else
          condition (Some (Z.lor current_value bit))
  end.

(** [ReaderLock] up to the choice of the copy.  The loop gets one pass: with
    no other thread running the compare-and-swap of the first pass finds the
    word it has just read, so that further passes are never entered
    ([ReaderLock_loop_first_pass] below). *)
Definition ReaderLock_with (check_double : bool) (process_index : Z) : M Z :=
  id <- load_current ;;
  if id =? 0 then throw EMPTY
  else ReaderLock_loop check_double 1 process_index None.

(** [int ReaderLock(int process_index)] of [shared_data_container.h]. *)
Definition ReaderLock : Z -> M Z := ReaderLock_with true.

(** [int ReaderLock(int process_index)] as [src/main.cpp] has it. *)
Definition ReaderLock_main : Z -> M Z := ReaderLock_with false.

(** [void ReaderUnlock(int process_index, int handle)] *)
Definition ReaderUnlock (process_index handle : Z) : M unit :=
  current_value <- load_used_by handle ;;
  bit <- shl1 process_index ;;
  if Z.land current_value bit =? 0 then throw NOT_LOCKED
  else atomic_fetch_and handle (not32 bit) ;;; ret tt.

(** [void ReaderReset(int process_index)] *)
Definition ReaderReset (process_index : Z) : M unit :=
  num <- size_slots ;;
  for_loop 0 num (fun i =>
    u <- load_used_by i ;;
    bit <- shl1 process_index ;;
    if negb (Z.land u bit =? 0)
    then atomic_fetch_and i (not32 bit) ;;; ret tt
    else ret tt).

(** [Message* ReaderGetMessage(int handle)], read through. *)
Definition ReaderGetMessage (handle : Z) : M Message := load_message handle.

(** The lambda of [WriterUpdateMessage] that finds the next free slot. *)
Fixpoint find_free_slot (i : Z) (iterations : nat) : M Z :=
  match iterations with
  | O => throw NO_FREE_SLOT
  | S n =>
      u <- load_used_by i ;;
      if u =? 0 then ret i else find_free_slot (i + 1) n
  end.

(** [void WriterUpdateMessage(const Message& msg)] *)
Definition WriterUpdateMessage (msg : Message) : M unit :=
  num <- size_slots ;;
  next_slot_index <- find_free_slot 0 num ;;
  store_message next_slot_index msg ;;;
  atomic_fetch_or next_slot_index used_by_writer ;;;
  old_slot_id <- load_current ;;
  store_current (next_slot_index + 1) ;;;
  if old_slot_id >? 0
  then atomic_fetch_and (old_slot_id - 1) (not32 used_by_writer) ;;; ret tt
  else ret tt.

(** [void WriterReset()] *)
Definition WriterReset : M unit :=
  num <- size_slots ;;
  for_loop 0 num (fun i =>
    id <- load_current ;;
    if negb (i =? id - 1) then
      u <- load_used_by i ;;
      if negb (Z.land u used_by_writer =? 0)
      then atomic_fetch_and i (not32 used_by_writer) ;;; ret tt
      else ret tt
    else ret tt).

(** ** The argument check of [main] *)

(** What [main] does with its arguments before it starts the producer:
    it returns a status, or goes on into the endless loop. *)
Inductive startup : Type :=
| Exit (status : Z)
| Runs (process_index : Z).

(** The conversion of an [int] to [unsigned] in a mixed comparison. *)
Definition to_unsigned (x : Z) : Z := x mod 2 ^ 32.

(** [main] up to [Producer producer(process_index)]; [parsed] is the value of
    [std::stoi(argv[1])], present when [argc >= 2].  The comparison
    [process_index > Configuration::number_of_processes] is between an [int]
    and an [unsigned], so the index is converted to [unsigned]. *)
Definition main_startup (number_of_processes : Z) (argc : Z) (parsed : Z)
  : startup :=
  if argc <? 2 then Exit 1
  else
    let process_index := parsed in
    if to_unsigned process_index >? number_of_processes then Exit 1
    else Runs process_index.

(** ** Containers of the unit tests (three processes) *)

(** After [WriterUpdateMessage(Message{5})] and [ReaderLock(0)] on the
    zero-filled container. *)
Definition locked_once : SharedDataContainer :=
  mkContainer 1
    [mkSlot (Z.lor used_by_writer 1) (mkMessage 5); zero_slot; zero_slot; zero_slot].

(** After [WriterUpdateMessage(Message{5})], [ReaderLock(0)] and
    [ReaderLock(1)]. *)
Definition locked_by_two : SharedDataContainer :=
  mkContainer 1
    [mkSlot (Z.lor used_by_writer 3) (mkMessage 5); zero_slot; zero_slot; zero_slot].

(** After one [WriterUpdateMessage(Message{10})]. *)
Definition written_once : SharedDataContainer :=
  mkContainer 1 [mkSlot used_by_writer (mkMessage 10); zero_slot; zero_slot; zero_slot].

(** After the writes of 10, 20 and 30 with [ReaderLock(0)] after each of the
    first two. *)
Definition three_writes : SharedDataContainer :=
  mkContainer 3
    [mkSlot 1 (mkMessage 10); mkSlot 1 (mkMessage 20);
     mkSlot used_by_writer (mkMessage 30); zero_slot].

(** Processes 0 and 1 pin slots 0 and 1, slot 2 is current. *)
Definition readers_pinned : SharedDataContainer :=
  mkContainer 3
    [mkSlot 1 (mkMessage 0); mkSlot 2 (mkMessage 10);
     mkSlot used_by_writer (mkMessage 20); zero_slot].

(** ** Definitions used in the statements *)

(** The state word after a successful [ReaderUnlock]. *)
Definition unpin (p : Z) (h : Z) (c : SharedDataContainer) : SharedDataContainer :=
  alter_slot (with_used_by (fun u => Z.land u (not32 (Z.shiftl 1 p)))) h c.

(** The state word after a successful [ReaderLock]. *)
Definition pin (p : Z) (h : Z) (c : SharedDataContainer) : SharedDataContainer :=
  alter_slot (with_used_by (fun u => Z.lor u (Z.shiftl 1 p))) h c.

(** The container after a loop whose pass [i] rewrites slot [i] by [g i]. *)
Fixpoint alter_range (g : Z -> Slot -> Slot) (i : Z) (iterations : nat)
    (c : SharedDataContainer) : SharedDataContainer :=
  match iterations with
  | O => c
  | S n => alter_range g (i + 1) n (alter_slot (g i) i c)
  end.

(** [ReaderReset]: what the loop body does to slot [i]. *)
Definition reset_reader_slot (p : Z) (s : Slot) : Slot :=
  if Z.testbit (used_by s) p
  then with_used_by (fun u => Z.land u (not32 (Z.shiftl 1 p))) s
  else s.

(** [WriterReset]: what the loop body does to slot [i]. *)
Definition reset_writer_slot (id : Z) (i : Z) (s : Slot) : Slot :=
  if negb (i =? id - 1) && Z.testbit (used_by s) 31
  then with_used_by (fun u => Z.land u (not32 used_by_writer)) s
  else s.

(** Slot [k] is the first slot whose state word is zero. *)
Definition first_free_slot (c : SharedDataContainer) (k : Z) : Prop :=
  (exists s, slot_at c k = Some s /\ used_by s = 0) /\
  (forall j s, 0 <= j < k -> slot_at c j = Some s -> used_by s <> 0).

Definition no_free_slot (c : SharedDataContainer) : Prop :=
  Forall (fun s => used_by s <> 0) (slots c).

(** The container after [WriterUpdateMessage] has taken slot [k]. *)
Definition published (k : Z) (msg : Message) (c : SharedDataContainer)
  : SharedDataContainer :=
  let marked :=
    alter_slot (with_used_by (fun u => Z.lor u used_by_writer)) k
      (alter_slot (with_message msg) k c) in
  let moved := mkContainer (k + 1) (slots marked) in
  if current_slot_id_ c >? 0
  then alter_slot (with_used_by (fun u => Z.land u (not32 used_by_writer)))
         (current_slot_id_ c - 1) moved
  else moved.

(** What [WriterUpdateMessage], taking slot [k], makes of slot [j]: the
    message and the writer bit go into slot [k], then the writer bit of the
    old current slot [id - 1] is cleared. *)
Definition publish_slot (id k : Z) (msg : Message) (j : Z) (s : Slot) : Slot :=
  let s1 := if j =? k
            then with_used_by (fun u => Z.lor u used_by_writer) (with_message msg s)
            else s in
  if (id >? 0) && (j =? id - 1)
  then with_used_by (fun u => Z.land u (not32 used_by_writer)) s1
  else s1.

(** A call of a member function by some process. [in_header] tells which
    copy of [ReaderLock] is called. *)
Inductive call : Type :=
| CallIsEmpty
| CallReaderLock (in_header : bool) (process_index : Z)
| CallReaderUnlock (process_index handle : Z)
| CallReaderReset (process_index : Z)
| CallReaderGetMessage (handle : Z)
| CallWriterUpdateMessage (msg : Message)
| CallWriterReset.

Definition perform (k : call) : M unit :=
  match k with
  | CallIsEmpty => IsEmpty ;;; ret tt
  | CallReaderLock in_header p => ReaderLock_with in_header p ;;; ret tt
  | CallReaderUnlock p h => ReaderUnlock p h
  | CallReaderReset p => ReaderReset p
  | CallReaderGetMessage h => ReaderGetMessage h ;;; ret tt
  | CallWriterUpdateMessage msg => WriterUpdateMessage msg
  | CallWriterReset => WriterReset
  end.

(** The process index of a call is one of [0 .. number_of_processes - 1]. *)
Definition process_index_ok (number_of_processes : nat) (k : call) : Prop :=
  match k with
  | CallReaderLock _ p | CallReaderUnlock p _ | CallReaderReset p =>
      0 <= p < Z.of_nat number_of_processes
  | _ => True
  end.

(** The container a finished call leaves behind, whether it returned or
    threw. *)
Definition leaves (o : outcome unit) (c' : SharedDataContainer) : Prop :=
  o = Returns tt c' \/ exists what, o = Throws what c'.

(** The containers that sequences of calls, each run to its end before the
    next starts, make of the zero-filled region. *)
Inductive reachable (number_of_processes : nat) : SharedDataContainer -> Prop :=
| reachable_zero :
    reachable number_of_processes (zero_container number_of_processes)
| reachable_call (c c' : SharedDataContainer) (k : call) :
    reachable number_of_processes c ->
    process_index_ok number_of_processes k ->
    leaves (perform k c) c' ->
    reachable number_of_processes c'.

(** The current slot, when there is one, carries the writer mark. *)
Definition current_slot_owned (c : SharedDataContainer) : Prop :=
  current_slot_id_ c = 0 \/
  exists s, slot_at c (current_slot_id_ c - 1) = Some s /\
            Z.testbit (used_by s) 31 = true.

Definition well_formed (number_of_processes : nat) (c : SharedDataContainer)
  : Prop :=
  length (slots c) = S number_of_processes /\ current_slot_owned c.

(** The scenario of the unit test "Lock several slots by the same process":
    the messages [msgs] are written one by one and process [p] locks the
    current slot after each write, never unlocking.  The handles come back
    in the order of the writes. *)
Fixpoint publish_and_lock (in_header : bool) (p : Z) (msgs : list Message)
  : M (list Z) :=
  match msgs with
  | [] => ret []
  | msg :: rest =>
      WriterUpdateMessage msg ;;;
      h <- ReaderLock_with in_header p ;;
      hs <- publish_and_lock in_header p rest ;;
      ret (h :: hs)
  end.

(** Further writes with no lock in between. *)
Fixpoint publish_all (msgs : list Message) : M unit :=
  match msgs with
  | [] => ret tt
  | msg :: rest => WriterUpdateMessage msg ;;; publish_all rest
  end.

(** Slot [h] carries the pin of process [p] and the message [msg]. *)
Definition pinned_with (p h : Z) (msg : Message) (c : SharedDataContainer)
  : Prop :=
  exists s, slot_at c h = Some s /\ Z.testbit (used_by s) p = true /\
            message s = msg.

(** The state of the unit test "Writes when all readers has a single locked
    slot": the [N - 1] processes [readers] each pin one slot, [slot_of p]
    for process [p], no two the same one; the current slot carries the writer
    mark and no pin; no other bit is set in the array. *)
Record one_pin_per_reader (N : nat) (c : SharedDataContainer)
    (readers : list Z) (slot_of : Z -> Z) : Prop := {
  opr_size : length (slots c) = S N;
  opr_count : length readers = (N - 1)%nat;
  opr_processes : NoDup readers /\
                  forall p, p ∈ readers -> 0 <= p < Z.of_nat N;
  opr_distinct : forall p q, p ∈ readers -> q ∈ readers ->
                   slot_of p = slot_of q -> p = q;
  opr_pinned : forall p, p ∈ readers ->
                 exists s, slot_at c (slot_of p) = Some s /\
                           used_by s = Z.shiftl 1 p;
  opr_current : exists s, slot_at c (current_slot_id_ c - 1) = Some s /\
                          used_by s = used_by_writer;
  opr_rest : forall j s, slot_at c j = Some s ->
               j <> current_slot_id_ c - 1 ->
               (forall p, p ∈ readers -> slot_of p <> j) ->
               used_by s = 0
}.

(** ** Invariants of the container between calls *)

(** Only the current slot carries the writer mark. *)
Definition writer_mark_on_current_only (c : SharedDataContainer) : Prop :=
  forall j s, slot_at c j = Some s -> Z.testbit (used_by s) 31 = true ->
              j = current_slot_id_ c - 1.

(** The bits set in the state words are reader bits of the processes
    [0 .. N - 1] and the writer bit. *)
Definition bits_in_use (N : nat) (c : SharedDataContainer) : Prop :=
  forall j s i, slot_at c j = Some s -> Z.testbit (used_by s) i = true ->
                i = 31 \/ 0 <= i < Z.of_nat N.

(** What a finished call can have made of the container [c]. *)
Inductive touched (N : nat) (c : SharedDataContainer)
  : SharedDataContainer -> Prop :=
| touched_not : touched N c c
| touched_pin (p : Z) :
    0 <= p < Z.of_nat N -> current_slot_id_ c <> 0 ->
    touched N c (pin p (current_slot_id_ c - 1) c)
| touched_unpin (p h : Z) :
    0 <= p < Z.of_nat N -> slot_at c h <> None ->
    touched N c (unpin p h c)
| touched_reader_reset (p : Z) :
    0 <= p < Z.of_nat N ->
    touched N c (alter_range (fun _ => reset_reader_slot p) 0 (length (slots c)) c)
| touched_published (k : Z) (msg : Message) :
    first_free_slot c k -> touched N c (published k msg c)
| touched_writer_reset :
    touched N c (alter_range (reset_writer_slot (current_slot_id_ c)) 0
                   (length (slots c)) c).

(** ** A writer killed inside [WriterUpdateMessage] *)

(** The statement of [WriterUpdateMessage] after which the process is
    killed: the store of the message, the [atomic_fetch_or] that marks the
    slot, or the store to [current_slot_id_]. *)
Inductive kill_point : Type :=
| KilledAfterMessage
| KilledAfterMark
| KilledAfterCurrent.

(** [WriterUpdateMessage] up to the statement [at_point], the rest of the
    body not run. *)
Definition WriterUpdateMessage_killed (at_point : kill_point) (msg : Message)
  : M unit :=
  num <- size_slots ;;
  next_slot_index <- find_free_slot 0 num ;;
  store_message next_slot_index msg ;;;
  match at_point with
  | KilledAfterMessage => ret tt
  | KilledAfterMark =>
      atomic_fetch_or next_slot_index used_by_writer ;;; ret tt
  | KilledAfterCurrent =>
      atomic_fetch_or next_slot_index used_by_writer ;;;
      old_slot_id <- load_current ;;
      store_current (next_slot_index + 1)
  end.

(** ** [Producer] and [Consumer] *)

(** The messages of the [std::runtime_error]s that [Consumer] throws. *)
Definition CONSUMER_DOUBLE_LOCK : string :=
  "Consumer: attempt to double lock a message".
Definition CONSUMER_EMPTY : string :=
  "Consumer: attempt to lock an empty message".
Definition CONSUMER_NOT_LOCKED : string :=
  "Consumer: attempt to unlock not locked message".

(** The members of [class Consumer] besides the mapping of the shared
    region; the container the member functions work on is the mapped one. *)
Record Consumer : Type := mkConsumer {
  producer_process_index : Z;
  locked_message_handle_ : Z;
  process_index_ : Z
}.

(** [Producer::Producer(int process_index)], once the region is mapped. *)
Definition Producer_attach : M unit := WriterReset.

(** [void Producer::UpdateMessage(const Message& msg)] *)
Definition Producer_UpdateMessage (msg : Message) : M unit :=
  WriterUpdateMessage msg.

(** [Consumer::Consumer(int current_process_index, int producer_index)],
    once the region of the producer is mapped. *)
Definition Consumer_attach (current_process_index producer_index : Z)
  : M Consumer :=
  ReaderReset current_process_index ;;;
  ret (mkConsumer producer_index (-1) current_process_index).

(** [bool Consumer::HasMessage() const] *)
Definition HasMessage (k : Consumer) : M bool :=
  empty <- IsEmpty ;;
  ret (negb empty).

(** [Message* Consumer::LockMessage()]; [in_header] tells which copy of
    [ReaderLock] the container has.  The result is the message behind the
    returned pointer, read at once, and the consumer with its new handle. *)
Definition LockMessage (in_header : bool) (k : Consumer)
  : M (Message * Consumer) :=
  if negb (locked_message_handle_ k =? -1) then throw CONSUMER_DOUBLE_LOCK
  else
    has <- HasMessage k ;;
    if negb has then throw CONSUMER_EMPTY
    else
      h <- ReaderLock_with in_header (process_index_ k) ;;
      let k' := mkConsumer (producer_process_index k) h (process_index_ k) in
      msg <- ReaderGetMessage (locked_message_handle_ k') ;;
      ret (msg, k').

(** [void Consumer::UnlockMessage()] *)
Definition UnlockMessage (k : Consumer) : M Consumer :=
  if locked_message_handle_ k =? -1 then throw CONSUMER_NOT_LOCKED
  else
    ReaderUnlock (process_index_ k) (locked_message_handle_ k) ;;;
    ret (mkConsumer (producer_process_index k) (-1) (process_index_ k)).

(** The body of the loop over [consumers] in [main]: the value printed for
    one consumer ([None] for "empty") and the consumer afterwards. *)
Definition main_read_consumer (in_header : bool) (k : Consumer)
  : M (option Z * Consumer) :=
  has <- HasMessage k ;;
  if has : bool then
    locked <- LockMessage in_header k ;;
    k' <- UnlockMessage (snd locked) ;;
    ret (Some (val (fst locked)), k')
  else ret (None, k).

(** ** One shared region and the processes that use it *)

(** The region of the producer with index [P]: the container, and for every
    other process its [Consumer] for this region. *)
Record region : Type := mkRegion {
  shared : SharedDataContainer;
  consumer_of : Z -> Consumer
}.

Definition set_consumer (q : Z) (k : Consumer) (f : Z -> Consumer)
  : Z -> Consumer :=
  fun i => if i =? q then k else f i.

(** Process [q] is one of the [N] processes and not the producer [P]. *)
Definition is_peer (N : nat) (P q : Z) : Prop :=
  0 <= q < Z.of_nat N /\ q <> P.

(** The zero-filled region, no consumer holding a handle. *)
Definition fresh_region (N : nat) (P : Z) : region :=
  mkRegion (zero_container N) (fun q => mkConsumer P (-1) q).

(** One call of an adapter by the producer or by a peer, run to its end. *)
Inductive region_step (N : nat) (P : Z) (r : region) : region -> Prop :=
| step_consumer_attach (q : Z) (k : Consumer) (c' : SharedDataContainer) :
    is_peer N P q ->
    Consumer_attach q P (shared r) = Returns k c' ->
    region_step N P r (mkRegion c' (set_consumer q k (consumer_of r)))
| step_has_message (q : Z) (b : bool) (c' : SharedDataContainer) :
    is_peer N P q ->
    HasMessage (consumer_of r q) (shared r) = Returns b c' ->
    region_step N P r (mkRegion c' (consumer_of r))
| step_lock (in_header : bool) (q : Z) (msg : Message) (k : Consumer)
    (c' : SharedDataContainer) :
    is_peer N P q ->
    LockMessage in_header (consumer_of r q) (shared r) = Returns (msg, k) c' ->
    region_step N P r (mkRegion c' (set_consumer q k (consumer_of r)))
| step_lock_throws (in_header : bool) (q : Z) (what : string)
    (c' : SharedDataContainer) :
    is_peer N P q ->
    LockMessage in_header (consumer_of r q) (shared r) = Throws what c' ->
    region_step N P r (mkRegion c' (consumer_of r))
| step_unlock (q : Z) (k : Consumer) (c' : SharedDataContainer) :
    is_peer N P q ->
    UnlockMessage (consumer_of r q) (shared r) = Returns k c' ->
    region_step N P r (mkRegion c' (set_consumer q k (consumer_of r)))
| step_unlock_throws (q : Z) (what : string) (c' : SharedDataContainer) :
    is_peer N P q ->
    UnlockMessage (consumer_of r q) (shared r) = Throws what c' ->
    region_step N P r (mkRegion c' (consumer_of r))
| step_producer_attach (c' : SharedDataContainer) :
    Producer_attach (shared r) = Returns tt c' ->
    region_step N P r (mkRegion c' (consumer_of r))
| step_update (msg : Message) (c' : SharedDataContainer) :
    leaves (Producer_UpdateMessage msg (shared r)) c' ->
    region_step N P r (mkRegion c' (consumer_of r)).

Inductive reachable_region (N : nat) (P : Z) : region -> Prop :=
| reachable_fresh : reachable_region N P (fresh_region N P)
| reachable_step (r r' : region) :
    reachable_region N P r -> region_step N P r r' ->
    reachable_region N P r'.

(** Between calls: the container is well formed, only its current slot has
    the writer mark, a reader bit is set on a slot only for a peer whose
    consumer holds that slot as its handle, and the slot a consumer holds as
    its handle has the bit of that consumer set. *)
Definition region_consistent (N : nat) (P : Z) (r : region) : Prop :=
  well_formed N (shared r) /\
  writer_mark_on_current_only (shared r) /\
  (forall q, process_index_ (consumer_of r q) = q) /\
  (forall j s i, slot_at (shared r) j = Some s -> i <> 31 ->
     Z.testbit (used_by s) i = true ->
     is_peer N P i /\ locked_message_handle_ (consumer_of r i) = j) /\
  (forall q, locked_message_handle_ (consumer_of r q) <> -1 ->
     is_peer N P q /\
     exists s, slot_at (shared r) (locked_message_handle_ (consumer_of r q))
                 = Some s /\
               Z.testbit (used_by s) q = true).

(** The region of producer 0 among three processes after one write, and
    after process 1 has then locked the message. *)
Definition region_written : region :=
  mkRegion written_once (consumer_of (fresh_region 3 0)).

Definition region_locked : region :=
  mkRegion (pin 1 0 written_once)
    (set_consumer 1 (mkConsumer 0 0 1) (consumer_of region_written)).

(** ** Bits of the state word *)

#[local] Arguments Z.testbit : simpl never.
#[local] Arguments Z.land : simpl never.
#[local] Arguments Z.lor : simpl never.
#[local] Arguments Z.shiftl : simpl never.
#[local] Arguments Z.lnot : simpl never.
#[local] Arguments Z.modulo : simpl never.

Lemma testbit_shl1 (p i : Z) :
  0 <= p -> Z.testbit (Z.shiftl 1 p) i = (p =? i).
Proof.
  intros Hp. rewrite Z.shiftl_1_l. apply Z.pow2_bits_eqb. exact Hp.
Qed.

Lemma land_shl1_eqb (x p : Z) :
  0 <= p -> (Z.land x (Z.shiftl 1 p) =? 0) = negb (Z.testbit x p).
Proof.
  intros Hp. destruct (Z.testbit x p) eqn:Hb; simpl.
  - apply Z.eqb_neq. intros H0.
    assert (Hf : Z.testbit (Z.land x (Z.shiftl 1 p)) p = false)
      by (rewrite H0; apply Z.bits_0).
    rewrite Z.land_spec, Hb, testbit_shl1, Z.eqb_refl in Hf by exact Hp.
    discriminate.
  - apply Z.eqb_eq. apply Z.bits_inj'. intros i _.
    rewrite Z.land_spec, testbit_shl1, Z.bits_0 by exact Hp.
    destruct (Z.eqb_spec p i) as [->|_].
    + rewrite Hb. reflexivity.
    + apply andb_false_r.
Qed.

Lemma land_writer_eqb (x : Z) :
  (Z.land x used_by_writer =? 0) = negb (Z.testbit x 31).
Proof. unfold used_by_writer. apply land_shl1_eqb. lia. Qed.

Lemma testbit_not32 (x i : Z) :
  0 <= i < 32 -> Z.testbit (not32 x) i = negb (Z.testbit x i).
Proof.
  intros Hi. unfold not32.
  rewrite Z.mod_pow2_bits_low by lia.
  apply Z.lnot_spec. lia.
Qed.

(** [fetch_and] with the complement of a one-bit mask clears that bit and
    keeps the others of the 32-bit word. *)
Lemma testbit_clear (x p i : Z) :
  0 <= p -> 0 <= i < 32 ->
  Z.testbit (Z.land x (not32 (Z.shiftl 1 p))) i
  = Z.testbit x i && negb (p =? i).
Proof.
  intros Hp Hi.
  rewrite Z.land_spec, testbit_not32, testbit_shl1 by assumption.
  reflexivity.
Qed.

Lemma testbit_set (x p i : Z) :
  0 <= p ->
  Z.testbit (Z.lor x (Z.shiftl 1 p)) i = Z.testbit x i || (p =? i).
Proof.
  intros Hp. rewrite Z.lor_spec, testbit_shl1 by assumption. reflexivity.
Qed.

(** ** Array accesses *)

Lemma slot_at_lookup (c : SharedDataContainer) (i : Z) :
  0 <= i -> slot_at c i = slots c !! Z.to_nat i.
Proof.
  intros Hi. unfold slot_at.
  destruct (Z.ltb_spec i 0); [lia | reflexivity].
Qed.

Lemma slot_at_Some_bounds (c : SharedDataContainer) (i : Z) (s : Slot) :
  slot_at c i = Some s -> 0 <= i < Z.of_nat (length (slots c)).
Proof.
  unfold slot_at. destruct (Z.ltb_spec i 0); [discriminate |].
  intros Hl. apply lookup_lt_Some in Hl. lia.
Qed.

Lemma slot_at_in_bounds (c : SharedDataContainer) (i : Z) :
  0 <= i < Z.of_nat (length (slots c)) -> exists s, slot_at c i = Some s.
Proof.
  intros Hi. rewrite slot_at_lookup by lia.
  destruct (lookup_lt_is_Some_2 (slots c) (Z.to_nat i)) as [s Hs]; [lia |].
  exists s. exact Hs.
Qed.

Lemma slot_at_None (c : SharedDataContainer) (i : Z) :
  slot_at c i = None <-> i < 0 \/ Z.of_nat (length (slots c)) <= i.
Proof.
  unfold slot_at. destruct (Z.ltb_spec i 0) as [Hneg|Hpos].
  - split; [intros _; left; exact Hneg | reflexivity].
  - rewrite lookup_ge_None. lia.
Qed.

Lemma slot_at_alter_eq (f : Slot -> Slot) (i : Z) (c : SharedDataContainer) :
  slot_at (alter_slot f i c) i = f <$> slot_at c i.
Proof.
  unfold slot_at, alter_slot; simpl.
  destruct (i <? 0); [reflexivity | apply list_lookup_alter_eq].
Qed.

Lemma slot_at_alter_ne (f : Slot -> Slot) (i j : Z) (c : SharedDataContainer) :
  0 <= i -> i <> j -> slot_at (alter_slot f i c) j = slot_at c j.
Proof.
  intros Hi Hne. unfold slot_at, alter_slot; simpl.
  destruct (Z.ltb_spec j 0); [reflexivity |].
  apply list_lookup_alter_ne. lia.
Qed.

Lemma length_alter_slot (f : Slot -> Slot) (i : Z) (c : SharedDataContainer) :
  length (slots (alter_slot f i c)) = length (slots c).
Proof. unfold alter_slot; simpl. apply length_alter. Qed.

Lemma current_alter_slot (f : Slot -> Slot) (i : Z) (c : SharedDataContainer) :
  current_slot_id_ (alter_slot f i c) = current_slot_id_ c.
Proof. reflexivity. Qed.

(** Altering a slot by a function that gives the slot back changes nothing. *)
Lemma alter_slot_id (f : Slot -> Slot) (i : Z) (c : SharedDataContainer) :
  (forall s, slot_at c i = Some s -> f s = s) -> 0 <= i ->
  alter_slot f i c = c.
Proof.
  intros Hf Hi. destruct c as [id l]. unfold alter_slot; simpl. f_equal.
  apply list_eq. intros j.
  destruct (decide (Z.to_nat i = j)) as [<-|Hne].
  - rewrite list_lookup_alter_eq.
    specialize (Hf) as Hf'. rewrite slot_at_lookup in Hf' by exact Hi. simpl in Hf'.
    destruct (l !! Z.to_nat i) as [s|] eqn:Hs; simpl; [|reflexivity].
    rewrite (Hf' s eq_refl). reflexivity.
  - apply list_lookup_alter_ne. exact Hne.
Qed.

Lemma lor_shl1_set (x p : Z) :
  0 <= p -> Z.testbit x p = true -> Z.lor x (Z.shiftl 1 p) = x.
Proof.
  intros Hp Hb. apply Z.bits_inj'. intros i _.
  rewrite testbit_set by exact Hp.
  destruct (Z.eqb_spec p i) as [<-|_].
  - rewrite Hb. reflexivity.
  - apply orb_false_r.
Qed.

Lemma shl1_run (p : Z) (c : SharedDataContainer) :
  0 <= p < 32 -> shl1 p c = Returns (Z.shiftl 1 p) c.
Proof.
  intros Hp. unfold shl1.
  destruct (Z.leb_spec 0 p); [| lia].
  destruct (Z.ltb_spec p 32); [| lia].
  reflexivity.
Qed.

(** ** What each member function computes *)

(** Unfolds the monad and the primitive accesses in the goal. *)
Ltac run_step :=
  unfold bind, ret, throw, undefined, load_current, store_current, size_slots,
    load_used_by, load_message, store_message, atomic_fetch_and,
    atomic_fetch_or, atomic_compare_exchange; simpl.

Lemma IsEmpty_run (c : SharedDataContainer) :
  IsEmpty c = Returns (current_slot_id_ c =? 0) c.
Proof. reflexivity. Qed.

Lemma ReaderGetMessage_run (h : Z) (c : SharedDataContainer) (s : Slot) :
  slot_at c h = Some s -> ReaderGetMessage h c = Returns (message s) c.
Proof. intros Hs. unfold ReaderGetMessage, load_message. rewrite Hs. reflexivity. Qed.

Lemma ReaderUnlock_run (p h : Z) (c : SharedDataContainer) (s : Slot) :
  0 <= p < 32 -> slot_at c h = Some s ->
  ReaderUnlock p h c =
    if Z.testbit (used_by s) p then Returns tt (unpin p h c)
    else Throws NOT_LOCKED c.
Proof.
  intros Hp Hs. unfold ReaderUnlock. run_step. rewrite Hs.
  rewrite shl1_run by exact Hp.
  rewrite land_shl1_eqb by lia.
  destruct (Z.testbit (used_by s) p); simpl; [| reflexivity].
  rewrite Hs. reflexivity.
Qed.

Lemma ReaderUnlock_undefined (p h : Z) (c : SharedDataContainer) :
  slot_at c h = None -> ReaderUnlock p h c = Undefined.
Proof. intros Hs. unfold ReaderUnlock. run_step. rewrite Hs. reflexivity. Qed.

Lemma alter_slot_ext (f g : Slot -> Slot) (i : Z) (c : SharedDataContainer) :
  (forall s, slot_at c i = Some s -> f s = g s) -> 0 <= i ->
  alter_slot f i c = alter_slot g i c.
Proof.
  intros Hfg Hi. unfold alter_slot. f_equal.
  apply list_alter_ext; [| reflexivity].
  intros s Hs. apply Hfg. rewrite slot_at_lookup by exact Hi. exact Hs.
Qed.

(** One pass through the loop body of [ReaderLock] on a current slot that the
    writer owns: the compare-and-swap finds the word it has just read. *)
Lemma ReaderLock_loop_owned (check_double : bool) (n : nat) (p : Z)
    (new_value : option Z) (c : SharedDataContainer) (s : Slot) :
  0 <= p < 32 ->
  slot_at c (current_slot_id_ c - 1) = Some s ->
  Z.testbit (used_by s) 31 = true ->
  ReaderLock_loop check_double (S n) p new_value c =
    if check_double && Z.testbit (used_by s) p then Throws DOUBLE_LOCK c
    else Returns (current_slot_id_ c - 1) (pin p (current_slot_id_ c - 1) c).
Proof.
  intros Hp Hs Hw. simpl. run_step. rewrite Hs.
  rewrite land_writer_eqb, Hw. simpl.
  rewrite shl1_run by exact Hp.
  rewrite land_shl1_eqb by lia. rewrite negb_involutive.
  destruct (check_double && Z.testbit (used_by s) p); [reflexivity |].
  rewrite Hs, Z.eqb_refl. f_equal.
  unfold pin. apply alter_slot_ext.
  - intros s' Hs'. rewrite Hs in Hs'. injection Hs' as <-. reflexivity.
  - apply slot_at_Some_bounds in Hs. lia.
Qed.

(** The loop of [ReaderLock] ends in its first pass, whatever the container:
    further iterations are never used. *)
Lemma ReaderLock_loop_first_pass (check_double : bool) (n : nat) (p : Z)
    (new_value : option Z) (c : SharedDataContainer) :
  ReaderLock_loop check_double (S n) p new_value c
  = ReaderLock_loop check_double 1 p new_value c.
Proof.
  simpl. run_step.
  destruct (slot_at c (current_slot_id_ c - 1)) as [s|] eqn:Hs; [| reflexivity].
  destruct (Z.land (used_by s) used_by_writer =? 0).
  - destruct new_value as [d|]; [| reflexivity].
    rewrite Hs, Z.eqb_refl. reflexivity.
  - destruct (shl1 p c) as [bit c'| | |] eqn:Hbit; try reflexivity.
    assert (c' = c) as ->.
    { unfold shl1 in Hbit.
      destruct ((0 <=? p) && (p <? 32)); [| discriminate].
      injection Hbit as _ ->. reflexivity. }
    destruct (check_double && negb (Z.land (used_by s) bit =? 0)); [reflexivity |].
    rewrite Hs, Z.eqb_refl. reflexivity.
Qed.

Lemma ReaderLock_loop_never_spins (check_double : bool) (n : nat) (p : Z)
    (new_value : option Z) (c : SharedDataContainer) :
  ReaderLock_loop check_double (S n) p new_value c <> Spins.
Proof.
  rewrite ReaderLock_loop_first_pass. simpl. run_step.
  destruct (slot_at c (current_slot_id_ c - 1)) as [s|] eqn:Hs; [| discriminate].
  destruct (Z.land (used_by s) used_by_writer =? 0).
  - destruct new_value as [d|]; [| discriminate].
    rewrite Hs, Z.eqb_refl. discriminate.
  - unfold shl1. destruct ((0 <=? p) && (p <? 32)); [| discriminate].
    simpl. destruct (check_double && negb (Z.land (used_by s) (Z.shiftl 1 p) =? 0));
      [discriminate |].
    rewrite Hs, Z.eqb_refl. discriminate.
Qed.

Lemma ReaderLock_with_empty (check_double : bool) (p : Z) (c : SharedDataContainer) :
  current_slot_id_ c = 0 -> ReaderLock_with check_double p c = Throws EMPTY c.
Proof. intros H0. unfold ReaderLock_with. run_step. rewrite H0. reflexivity. Qed.

Lemma ReaderLock_with_owned (check_double : bool) (p : Z)
    (c : SharedDataContainer) (s : Slot) :
  0 <= p < 32 ->
  current_slot_id_ c <> 0 ->
  slot_at c (current_slot_id_ c - 1) = Some s ->
  Z.testbit (used_by s) 31 = true ->
  ReaderLock_with check_double p c =
    if check_double && Z.testbit (used_by s) p then Throws DOUBLE_LOCK c
    else Returns (current_slot_id_ c - 1) (pin p (current_slot_id_ c - 1) c).
Proof.
  intros Hp Hid Hs Hw. unfold ReaderLock_with.
  unfold bind at 1. unfold load_current.
  destruct (Z.eqb_spec (current_slot_id_ c) 0); [contradiction |].
  apply ReaderLock_loop_owned; assumption.
Qed.

(** Setting a reader bit that is already set leaves the container as it is. *)
Lemma pin_pinned (p h : Z) (c : SharedDataContainer) (s : Slot) :
  0 <= p -> slot_at c h = Some s -> Z.testbit (used_by s) p = true ->
  pin p h c = c.
Proof.
  intros Hp Hs Hb. unfold pin. apply alter_slot_id.
  - intros s' Hs'. rewrite Hs in Hs'. injection Hs' as <-.
    unfold with_used_by. rewrite lor_shl1_set by assumption.
    destruct s; reflexivity.
  - apply slot_at_Some_bounds in Hs. lia.
Qed.

(** *** Loops over the slot array *)

Lemma current_alter_range g i n c :
  current_slot_id_ (alter_range g i n c) = current_slot_id_ c.
Proof.
  revert i c. induction n as [|n IH]; intros i c; simpl; [reflexivity |].
  rewrite IH. reflexivity.
Qed.

Lemma length_alter_range g i n c :
  length (slots (alter_range g i n c)) = length (slots c).
Proof.
  revert i c. induction n as [|n IH]; intros i c; simpl; [reflexivity |].
  rewrite IH. apply length_alter_slot.
Qed.

Lemma slot_at_alter_range g i n c j :
  0 <= i ->
  slot_at (alter_range g i n c) j =
    if (i <=? j) && (j <? i + Z.of_nat n) then g j <$> slot_at c j
    else slot_at c j.
Proof.
  revert i c. induction n as [|n IH]; intros i c Hi; simpl alter_range.
  - destruct (Z.leb_spec i j), (Z.ltb_spec j (i + Z.of_nat 0)); simpl;
      try reflexivity; lia.
  - rewrite IH by lia.
    destruct (Z.eq_dec i j) as [<-|Hne].
    + rewrite slot_at_alter_eq.
      destruct (Z.leb_spec (i + 1) i), (Z.leb_spec i i),
        (Z.ltb_spec i (i + Z.of_nat (S n))); simpl; try reflexivity; lia.
    + rewrite slot_at_alter_ne by assumption.
      destruct (Z.leb_spec (i + 1) j), (Z.leb_spec i j),
        (Z.ltb_spec j (i + 1 + Z.of_nat n)),
        (Z.ltb_spec j (i + Z.of_nat (S n))); simpl; try reflexivity; lia.
Qed.

(** A [for] loop over the slots [i, i + n) whose body rewrites only its own
    slot, and reads besides it only [current_slot_id_]. *)
Lemma for_loop_alter (body : Z -> M unit) (g : Z -> Slot -> Slot) (id : Z) :
  (forall i c, current_slot_id_ c = id ->
     0 <= i < Z.of_nat (length (slots c)) ->
     body i c = Returns tt (alter_slot (g i) i c)) ->
  forall n i c, current_slot_id_ c = id -> 0 <= i ->
    i + Z.of_nat n <= Z.of_nat (length (slots c)) ->
    for_loop i n body c = Returns tt (alter_range g i n c).
Proof.
  intros Hbody. induction n as [|n IH]; intros i c Hid Hi Hlen; simpl.
  - reflexivity.
  - unfold bind. rewrite Hbody by (try assumption; lia).
    apply IH.
    + exact Hid.
    + lia.
    + rewrite length_alter_slot. lia.
Qed.

Lemma ReaderReset_run (p : Z) (c : SharedDataContainer) :
  0 <= p < 32 ->
  ReaderReset p c =
    Returns tt (alter_range (fun _ => reset_reader_slot p) 0 (length (slots c)) c).
Proof.
  intros Hp. unfold ReaderReset. unfold bind at 1. unfold size_slots.
  apply for_loop_alter with (id := current_slot_id_ c); try reflexivity; try lia.
  intros i c' _ Hi. run_step.
  destruct (slot_at_in_bounds c' i Hi) as [s Hs]. rewrite Hs.
  rewrite shl1_run by exact Hp. rewrite land_shl1_eqb by lia.
  rewrite negb_involutive.
  destruct (Z.testbit (used_by s) p) eqn:Hb; simpl.
  - rewrite Hs. f_equal. apply alter_slot_ext; [| lia].
    intros s' Hs'. rewrite Hs in Hs'. injection Hs' as <-.
    unfold reset_reader_slot. rewrite Hb. reflexivity.
  - f_equal. symmetry. apply alter_slot_id; [| lia].
    intros s' Hs'. rewrite Hs in Hs'. injection Hs' as <-.
    unfold reset_reader_slot. rewrite Hb. reflexivity.
Qed.

Lemma WriterReset_run (c : SharedDataContainer) :
  WriterReset c =
    Returns tt (alter_range (reset_writer_slot (current_slot_id_ c)) 0
                  (length (slots c)) c).
Proof.
  unfold WriterReset. unfold bind at 1. unfold size_slots.
  apply for_loop_alter with (id := current_slot_id_ c); try reflexivity; try lia.
  intros i c' Hid Hi. run_step. rewrite Hid.
  destruct (slot_at_in_bounds c' i Hi) as [s Hs].
  unfold reset_writer_slot.
  destruct (negb (i =? current_slot_id_ c - 1)) eqn:Hcur; simpl.
  - rewrite Hs. rewrite land_writer_eqb, negb_involutive.
    destruct (Z.testbit (used_by s) 31) eqn:Hb; simpl.
    + rewrite Hs. f_equal. apply alter_slot_ext; [| lia].
      intros s' Hs'. rewrite Hs in Hs'. injection Hs' as <-.
      simpl. rewrite Hb. reflexivity.
    + f_equal. symmetry. apply alter_slot_id; [| lia].
      intros s' Hs'. rewrite Hs in Hs'. injection Hs' as <-.
      simpl. rewrite Hb. reflexivity.
  - f_equal. symmetry. apply alter_slot_id; [| lia]. reflexivity.
Qed.

(** *** The writer *)

Lemma find_free_slot_run (c : SharedDataContainer) :
  forall n i, 0 <= i -> i + Z.of_nat n = Z.of_nat (length (slots c)) ->
    (exists k s, find_free_slot i n c = Returns k c /\ i <= k /\
        slot_at c k = Some s /\ used_by s = 0 /\
        (forall j s', i <= j < k -> slot_at c j = Some s' -> used_by s' <> 0))
    \/ (find_free_slot i n c = Throws NO_FREE_SLOT c /\
        (forall j s', i <= j -> slot_at c j = Some s' -> used_by s' <> 0)).
Proof.
  induction n as [|n IH]; intros i Hi Hlen; simpl.
  - right. split; [reflexivity |].
    intros j s' Hj Hs'. apply slot_at_Some_bounds in Hs'. lia.
  - run_step.
    destruct (slot_at_in_bounds c i) as [s Hs]; [lia |]. rewrite Hs.
    destruct (Z.eqb_spec (used_by s) 0) as [H0|Hn0].
    + left. exists i, s. repeat split; try assumption; try lia.
    + destruct (IH (i + 1)) as [(k & s' & Hrun & Hk & Hs' & H0 & Hbefore)
                                | [Hrun Hall]]; try lia.
      * left. exists k, s'. repeat split; try assumption; try lia.
        intros j sj Hj Hsj. destruct (Z.eq_dec j i) as [->|Hne].
        -- rewrite Hs in Hsj. injection Hsj as <-. exact Hn0.
        -- apply (Hbefore j); [lia | exact Hsj].
      * right. split; [exact Hrun |].
        intros j sj Hj Hsj. destruct (Z.eq_dec j i) as [->|Hne].
        -- rewrite Hs in Hsj. injection Hsj as <-. exact Hn0.
        -- apply (Hall j); [lia | exact Hsj].
Qed.

Lemma find_free_slot_cases (c : SharedDataContainer) :
  (exists k, first_free_slot c k /\
             find_free_slot 0 (length (slots c)) c = Returns k c)
  \/ (no_free_slot c /\
      find_free_slot 0 (length (slots c)) c = Throws NO_FREE_SLOT c).
Proof.
  destruct (find_free_slot_run c (length (slots c)) 0)
    as [(k & s & Hrun & Hk & Hs & H0 & Hbefore) | [Hrun Hall]]; try lia.
  - left. exists k. split; [| exact Hrun]. split; [exists s; auto | exact Hbefore].
  - right. split; [| exact Hrun].
    apply Forall_lookup. intros i s Hs.
    apply (Hall (Z.of_nat i)); [lia |].
    rewrite slot_at_lookup by lia. rewrite Nat2Z.id. exact Hs.
Qed.

(** The first free slot is unique, and there is none when all are in use. *)
Lemma first_free_slot_unique (c : SharedDataContainer) (k k' : Z) :
  first_free_slot c k -> first_free_slot c k' -> k = k'.
Proof.
  intros [(s & Hs & H0) Hbefore] [(s' & Hs' & H0') Hbefore'].
  pose proof (slot_at_Some_bounds _ _ _ Hs).
  pose proof (slot_at_Some_bounds _ _ _ Hs').
  destruct (Z.lt_trichotomy k k') as [Hlt | [Heq | Hgt]]; [| exact Heq |].
  - exfalso. apply (Hbefore' k s); [lia | exact Hs | exact H0].
  - exfalso. apply (Hbefore k' s'); [lia | exact Hs' | exact H0'].
Qed.

Lemma first_free_slot_not_full (c : SharedDataContainer) (k : Z) :
  first_free_slot c k -> ~ no_free_slot c.
Proof.
  intros [(s & Hs & H0) _] Hfull.
  pose proof (slot_at_Some_bounds _ _ _ Hs) as Hk.
  rewrite slot_at_lookup in Hs by lia.
  unfold no_free_slot in Hfull. rewrite Forall_lookup in Hfull.
  exact (Hfull _ _ Hs H0).
Qed.

Lemma slot_at_mkContainer (id : Z) (c : SharedDataContainer) (j : Z) :
  slot_at (mkContainer id (slots c)) j = slot_at c j.
Proof. reflexivity. Qed.

Lemma WriterUpdateMessage_full (msg : Message) (c : SharedDataContainer) :
  no_free_slot c -> WriterUpdateMessage msg c = Throws NO_FREE_SLOT c.
Proof.
  intros Hfull. unfold WriterUpdateMessage. unfold bind at 1 2, size_slots.
  destruct (find_free_slot_cases c) as [(k & Hk & _) | [_ ->]]; [| reflexivity].
  exfalso. exact (first_free_slot_not_full _ _ Hk Hfull).
Qed.

Lemma WriterUpdateMessage_free (msg : Message) (c : SharedDataContainer) (k : Z) :
  first_free_slot c k ->
  WriterUpdateMessage msg c =
    if (current_slot_id_ c >? 0) &&
       negb (current_slot_id_ c - 1 <? Z.of_nat (length (slots c)))
    then Undefined
    else Returns tt (published k msg c).
Proof.
  intros Hk. unfold WriterUpdateMessage. unfold bind at 1 2, size_slots.
  destruct (find_free_slot_cases c) as [(k' & Hk' & ->) | [Hfull _]].
  2: { exfalso. exact (first_free_slot_not_full _ _ Hk Hfull). }
  rewrite (first_free_slot_unique _ _ _ Hk' Hk). clear k' Hk'.
  destruct Hk as [(s & Hs & H0) _].
  pose proof (slot_at_Some_bounds _ _ _ Hs) as Hkb.
  run_step. rewrite Hs. rewrite slot_at_alter_eq, Hs. simpl.
  unfold published.
  destruct (Z.gtb_spec (current_slot_id_ c) 0) as [Hpos|Hnpos]; simpl;
    [| reflexivity].
  set (moved := mkContainer (k + 1) _).
  assert (Hlen : length (slots moved) = length (slots c)).
  { unfold moved. simpl. rewrite !length_alter. reflexivity. }
  destruct (Z.ltb_spec (current_slot_id_ c - 1) (Z.of_nat (length (slots c))))
    as [Hin|Hout]; simpl.
  - destruct (slot_at_in_bounds moved (current_slot_id_ c - 1)) as [s' Hs'].
    { rewrite Hlen. lia. }
    rewrite Hs'. reflexivity.
  - assert (Hnone : slot_at moved (current_slot_id_ c - 1) = None).
    { apply slot_at_None. right. rewrite Hlen. exact Hout. }
    rewrite Hnone. reflexivity.
Qed.

Lemma current_published k msg c : current_slot_id_ (published k msg c) = k + 1.
Proof. unfold published. destruct (current_slot_id_ c >? 0); reflexivity. Qed.

Lemma length_published k msg c :
  length (slots (published k msg c)) = length (slots c).
Proof.
  unfold published. destruct (current_slot_id_ c >? 0); simpl;
    rewrite !length_alter; reflexivity.
Qed.

Lemma slot_at_published k msg c j :
  0 <= k ->
  slot_at (published k msg c) j
  = publish_slot (current_slot_id_ c) k msg j <$> slot_at c j.
Proof.
  intros Hk. unfold published, publish_slot.
  set (marked := alter_slot _ k (alter_slot _ k c)).
  assert (Hmarked : slot_at marked j =
            (fun s => if j =? k
                      then with_used_by (fun u => Z.lor u used_by_writer)
                             (with_message msg s)
                      else s) <$> slot_at c j).
  { unfold marked. destruct (Z.eqb_spec j k) as [->|Hne].
    - rewrite !slot_at_alter_eq. destruct (slot_at c k); reflexivity.
    - rewrite !slot_at_alter_ne by (try assumption; congruence).
      destruct (slot_at c j); reflexivity. }
  assert (Hmoved : forall id, slot_at (mkContainer id (slots marked)) j =
            (fun s => if j =? k
                      then with_used_by (fun u => Z.lor u used_by_writer)
                             (with_message msg s)
                      else s) <$> slot_at c j)
    by (intros id; exact Hmarked).
  clearbody marked.
  destruct (Z.gtb_spec (current_slot_id_ c) 0) as [Hpos|Hnpos]; cbn [andb].
  - destruct (Z.eqb_spec j (current_slot_id_ c - 1)) as [->|Hne].
    + rewrite slot_at_alter_eq, Hmoved.
      destruct (slot_at c (current_slot_id_ c - 1)); reflexivity.
    + rewrite slot_at_alter_ne by (try lia; congruence).
      rewrite Hmoved. reflexivity.
  - rewrite Hmoved. reflexivity.
Qed.

Lemma slot_at_pin p h c j :
  slot_at c h <> None ->
  slot_at (pin p h c) j =
    (fun s => if j =? h then with_used_by (fun u => Z.lor u (Z.shiftl 1 p)) s else s)
      <$> slot_at c j.
Proof.
  intros Hh. unfold pin. destruct (Z.eqb_spec j h) as [->|Hne].
  - apply slot_at_alter_eq.
  - rewrite slot_at_alter_ne.
    + destruct (slot_at c j); reflexivity.
    + destruct (slot_at c h) as [s|] eqn:Hs; [| contradiction].
      apply slot_at_Some_bounds in Hs. lia.
    + congruence.
Qed.

Lemma slot_at_unpin p h c j :
  slot_at c h <> None ->
  slot_at (unpin p h c) j =
    (fun s => if j =? h
              then with_used_by (fun u => Z.land u (not32 (Z.shiftl 1 p))) s
              else s) <$> slot_at c j.
Proof.
  intros Hh. unfold unpin. destruct (Z.eqb_spec j h) as [->|Hne].
  - apply slot_at_alter_eq.
  - rewrite slot_at_alter_ne.
    + destruct (slot_at c j); reflexivity.
    + destruct (slot_at c h) as [s|] eqn:Hs; [| contradiction].
      apply slot_at_Some_bounds in Hs. lia.
    + congruence.
Qed.

(** Inversions: what a returning call tells about the container. *)

Lemma ReaderLock_with_returns (check_double : bool) (p h : Z)
    (c c' : SharedDataContainer) :
  ReaderLock_with check_double p c = Returns h c' ->
  0 <= p < 32 /\ current_slot_id_ c <> 0 /\ h = current_slot_id_ c - 1 /\
  (exists s, slot_at c h = Some s /\ Z.testbit (used_by s) 31 = true /\
             (check_double = true -> Z.testbit (used_by s) p = false)) /\
  c' = pin p h c.
Proof.
  unfold ReaderLock_with. unfold bind at 1. unfold load_current.
  destruct (Z.eqb_spec (current_slot_id_ c) 0) as [H0|Hn0]; [discriminate |].
  simpl. run_step.
  destruct (slot_at c (current_slot_id_ c - 1)) as [s|] eqn:Hs; [| discriminate].
  rewrite land_writer_eqb.
  destruct (Z.testbit (used_by s) 31) eqn:Hw; simpl; [| discriminate].
  unfold shl1.
  destruct (Z.leb_spec 0 p); simpl; [| discriminate].
  destruct (Z.ltb_spec p 32); simpl; [| discriminate].
  rewrite land_shl1_eqb by lia. rewrite negb_involutive.
  destruct (check_double && Z.testbit (used_by s) p) eqn:Hd; [discriminate |].
  rewrite Hs, Z.eqb_refl. intros Hret. injection Hret as <- <-.
  repeat split; try assumption; try lia.
  - exists s. repeat split; try assumption.
    intros ->. exact Hd.
  - unfold pin. apply alter_slot_ext.
    + intros s' Hs'. rewrite Hs in Hs'. injection Hs' as <-. reflexivity.
    + apply slot_at_Some_bounds in Hs. lia.
Qed.

Lemma WriterUpdateMessage_returns (msg : Message) (c c' : SharedDataContainer) :
  WriterUpdateMessage msg c = Returns tt c' ->
  exists k, first_free_slot c k /\ c' = published k msg c /\
            current_slot_id_ c <= Z.of_nat (length (slots c)).
Proof.
  intros Hrun.
  destruct (find_free_slot_cases c) as [(k & Hk & _) | [Hfull _]].
  - rewrite (WriterUpdateMessage_free _ _ _ Hk) in Hrun.
    destruct (Z.gtb_spec (current_slot_id_ c) 0);
      destruct (Z.ltb_spec (current_slot_id_ c - 1) (Z.of_nat (length (slots c))));
      simpl in Hrun; try discriminate;
      injection Hrun as <-; exists k; repeat split; try apply Hk; lia.
  - rewrite WriterUpdateMessage_full in Hrun by exact Hfull. discriminate.
Qed.

Lemma ReaderUnlock_returns (p h : Z) (c c' : SharedDataContainer) :
  ReaderUnlock p h c = Returns tt c' ->
  0 <= p < 32 /\ c' = unpin p h c /\
  exists s, slot_at c h = Some s /\ Z.testbit (used_by s) p = true.
Proof.
  unfold ReaderUnlock. run_step.
  destruct (slot_at c h) as [s|] eqn:Hs; [| discriminate].
  unfold shl1.
  destruct (Z.leb_spec 0 p); simpl; [| discriminate].
  destruct (Z.ltb_spec p 32); simpl; [| discriminate].
  rewrite land_shl1_eqb by lia.
  destruct (Z.testbit (used_by s) p) eqn:Hb; simpl; [| discriminate].
  rewrite Hs. intros Hret. injection Hret as <-.
  repeat split; try lia. exists s. split; [reflexivity | exact Hb].
Qed.

(** ** Properties of the reader calls *)

(** [ReaderLock] as [shared_data_container.h] has it: on a current slot that
    carries the writer mark and the caller's own bit the call throws the
    double-lock error and the container is as before. *)
Lemma ReaderLock_double_lock (p : Z) (c : SharedDataContainer) (s : Slot) :
  0 <= p < 32 ->
  current_slot_id_ c <> 0 ->
  slot_at c (current_slot_id_ c - 1) = Some s ->
  Z.testbit (used_by s) 31 = true ->
  Z.testbit (used_by s) p = true ->
  ReaderLock p c = Throws DOUBLE_LOCK c.
Proof.
  intros Hp Hid Hs Hw Hb. unfold ReaderLock.
  rewrite (ReaderLock_with_owned true p c s) by assumption.
  rewrite Hb. reflexivity.
Qed.

(** The copy of [ReaderLock] in [src/main.cpp] has no test of the caller's
    own bit: on a current slot that carries the writer mark and the bit of
    [p] it returns the index of that slot, and the container is as before. *)
Lemma ReaderLock_main_ignores_own_pin
    (p : Z) (c : SharedDataContainer) (s : Slot) :
  0 <= p < 32 ->
  current_slot_id_ c <> 0 ->
  slot_at c (current_slot_id_ c - 1) = Some s ->
  Z.testbit (used_by s) 31 = true ->
  Z.testbit (used_by s) p = true ->
  ReaderLock_main p c = Returns (current_slot_id_ c - 1) c.
Proof.
  intros Hp Hid Hs Hw Hb. unfold ReaderLock_main.
  rewrite (ReaderLock_with_owned false p c s) by assumption.
  simpl. f_equal. apply (pin_pinned p _ c s); try assumption. lia.
Qed.

(** C1, on the copy of [ReaderLock] in [src/main.cpp]: in the container of
    the unit test "Double lock of the same slot by the same process" (one
    message written, slot 0 current with the writer mark and the pin of
    process 0) a second [ReaderLock(0)] does not throw the double-lock
    error: it returns the handle 0. *)
Theorem ReaderLock_main_double_lock_returns :
  (WriterUpdateMessage (mkMessage 5) ;;; ReaderLock_main 0) (zero_container 3)
    = Returns 0 locked_once /\
  current_slot_id_ locked_once <> 0 /\
  (exists s, slot_at locked_once (current_slot_id_ locked_once - 1) = Some s /\
             Z.testbit (used_by s) 31 = true /\ Z.testbit (used_by s) 0 = true) /\
  ReaderLock_main 0 locked_once = Returns 0 locked_once /\
  ReaderLock 0 locked_once = Throws DOUBLE_LOCK locked_once.
Proof.
  split; [reflexivity |]. split; [discriminate |].
  split; [eexists; repeat split; reflexivity |].
  split; reflexivity.
Qed.

(** C6: [ReaderUnlock(p, h)] throws the not-locked error when bit [p] of the
    state word of slot [h] is clear and leaves the container as it is;
    otherwise it returns, bit [p] of slot [h] is cleared, the other bits of
    that word, its message, the other slots and [current_slot_id_] are
    unchanged.  Only the state word of slot [h] decides: how the bit came to
    be set plays no part. *)
Theorem ReaderUnlock_clears_own_bit
    (p h : Z) (c : SharedDataContainer) (s : Slot) :
  0 <= p < 32 ->
  slot_at c h = Some s ->
  (Z.testbit (used_by s) p = false ->
     ReaderUnlock p h c = Throws NOT_LOCKED c) /\
  (Z.testbit (used_by s) p = true ->
     exists c' s',
       ReaderUnlock p h c = Returns tt c' /\
       current_slot_id_ c' = current_slot_id_ c /\
       slot_at c' h = Some s' /\
       message s' = message s /\
       (forall i, 0 <= i < 32 ->
          Z.testbit (used_by s') i
          = if i =? p then false else Z.testbit (used_by s) i) /\
       (forall j, j <> h -> slot_at c' j = slot_at c j)).
Proof.
  intros Hp Hs. rewrite (ReaderUnlock_run p h c s) by assumption.
  split; intros Hb; rewrite Hb; [reflexivity |].
  assert (Hh : slot_at c h <> None) by (rewrite Hs; discriminate).
  exists (unpin p h c), (with_used_by (fun u => Z.land u (not32 (Z.shiftl 1 p))) s).
  split; [reflexivity |]. split; [reflexivity |]. split; [| split; [reflexivity | split]].
  - rewrite slot_at_unpin by exact Hh. rewrite Hs, Z.eqb_refl. reflexivity.
  - intros i Hi. simpl. rewrite testbit_clear by lia.
    rewrite (Z.eqb_sym i p).
    destruct (p =? i); [apply andb_false_r | apply andb_true_r].
  - intros j Hne. rewrite slot_at_unpin by exact Hh.
    destruct (Z.eqb_spec j h); [contradiction |].
    destruct (slot_at c j); reflexivity.
Qed.

(** ** Properties of the writer calls *)

(** C5: [WriterUpdateMessage] throws the no-free-slot error exactly when
    every state word is nonzero, and a call that throws leaves the container
    (state words, messages, [current_slot_id_]) as it found it. *)
Theorem WriterUpdateMessage_no_free_slot (msg : Message) (c : SharedDataContainer) :
  ((exists c', WriterUpdateMessage msg c = Throws NO_FREE_SLOT c')
     <-> Forall (fun s => used_by s <> 0) (slots c)) /\
  (forall what c', WriterUpdateMessage msg c = Throws what c' ->
     what = NO_FREE_SLOT /\ c' = c).
Proof.
  destruct (find_free_slot_cases c) as [(k & Hk & _) | [Hfull _]].
  - pose proof (WriterUpdateMessage_free msg c k Hk) as Hrun.
    assert (Hnothrow : forall what c', WriterUpdateMessage msg c <> Throws what c').
    { intros what c'. rewrite Hrun.
      destruct (_ && _); discriminate. }
    split.
    + split.
      * intros [c' Hc']. exfalso. exact (Hnothrow _ _ Hc').
      * intros Hfull. exfalso. exact (first_free_slot_not_full _ _ Hk Hfull).
    + intros what c' Hc'. exfalso. exact (Hnothrow _ _ Hc').
  - pose proof (WriterUpdateMessage_full msg c Hfull) as Hrun.
    split.
    + split; [intros _; exact Hfull | intros _; exists c; exact Hrun].
    + intros what c' Hc'. rewrite Hrun in Hc'. injection Hc' as <- <-.
      split; reflexivity.
Qed.

(** C7: [WriterReset] returns; afterwards every slot other than slot
    [current_slot_id_ - 1] has its writer bit clear, the state word of slot
    [current_slot_id_ - 1] is the one before, and no bit other than the
    writer bit has changed in any slot (nor has any message, nor
    [current_slot_id_]). *)
Theorem WriterReset_clears_stray_writer_bits (c : SharedDataContainer) :
  exists c',
    WriterReset c = Returns tt c' /\
    current_slot_id_ c' = current_slot_id_ c /\
    length (slots c') = length (slots c) /\
    forall j s, slot_at c j = Some s ->
      exists s',
        slot_at c' j = Some s' /\
        message s' = message s /\
        (j <> current_slot_id_ c - 1 -> Z.testbit (used_by s') 31 = false) /\
        (j = current_slot_id_ c - 1 -> used_by s' = used_by s) /\
        (forall i, 0 <= i < 31 ->
           Z.testbit (used_by s') i = Z.testbit (used_by s) i).
Proof.
  eexists. split; [apply WriterReset_run |].
  split; [apply current_alter_range |].
  split; [apply length_alter_range |].
  intros j s Hs. pose proof (slot_at_Some_bounds _ _ _ Hs) as Hj.
  exists (reset_writer_slot (current_slot_id_ c) j s).
  split.
  - rewrite slot_at_alter_range by lia. rewrite Hs.
    destruct (Z.leb_spec 0 j), (Z.ltb_spec j (0 + Z.of_nat (length (slots c))));
      simpl; try reflexivity; lia.
  - unfold reset_writer_slot.
    destruct (Z.eqb_spec j (current_slot_id_ c - 1)) as [Heq|Hne]; simpl.
    + repeat split; try reflexivity. intros Hne. contradiction.
    + destruct (Z.testbit (used_by s) 31) eqn:Hw; simpl.
      * repeat split; try (intros; lia).
        -- intros _. unfold used_by_writer. rewrite testbit_clear by lia.
           rewrite Hw. reflexivity.
        -- intros i Hi. unfold used_by_writer. rewrite testbit_clear by lia.
           destruct (Z.eqb_spec 31 i); [lia | apply andb_true_r].
      * repeat split; try (intros; lia). intros _. exact Hw.
Qed.

Lemma free_slot_first (c : SharedDataContainer) :
  Exists (fun s => used_by s = 0) (slots c) -> exists k, first_free_slot c k.
Proof.
  intros Hex.
  destruct (find_free_slot_cases c) as [(k & Hk & _) | [Hfull _]].
  - exists k. exact Hk.
  - exfalso. apply Exists_exists in Hex as (s & Hin & H0).
    unfold no_free_slot in Hfull. rewrite Forall_forall in Hfull.
    exact (Hfull s Hin H0).
Qed.

Lemma lor_zero_writer_cleared :
  Z.land (Z.lor 0 used_by_writer) (not32 used_by_writer) = 0.
Proof. reflexivity. Qed.

(** C4: with a free slot in the array (and [current_slot_id_] not beyond
    the array), [WriterUpdateMessage msg] returns; it takes the first slot
    [n] whose state word is zero, the message of slot [n] becomes [msg], its
    state word the writer bit alone, [current_slot_id_] becomes [n + 1], and
    when the old [current_slot_id_] was nonzero the writer bit of the old
    current slot is cleared with its other bits unchanged.  All other slots
    stay as they are.  (Should the old current slot be slot [n] itself,
    which needs a current slot with a zero state word, the clearing comes
    after the setting and the word of slot [n] ends as zero.) *)
Theorem WriterUpdateMessage_takes_first_free_slot
    (msg : Message) (c : SharedDataContainer) :
  Exists (fun s => used_by s = 0) (slots c) ->
  current_slot_id_ c <= Z.of_nat (length (slots c)) ->
  exists n c',
    first_free_slot c n /\
    WriterUpdateMessage msg c = Returns tt c' /\
    current_slot_id_ c' = n + 1 /\
    (exists s', slot_at c' n = Some s' /\ message s' = msg /\
       used_by s' = if current_slot_id_ c - 1 =? n then 0 else used_by_writer) /\
    (forall s, current_slot_id_ c <> 0 ->
       slot_at c (current_slot_id_ c - 1) = Some s ->
       exists s', slot_at c' (current_slot_id_ c - 1) = Some s' /\
         Z.testbit (used_by s') 31 = false /\
         (forall i, 0 <= i < 31 ->
            Z.testbit (used_by s') i = Z.testbit (used_by s) i)) /\
    (forall j, j <> n -> j <> current_slot_id_ c - 1 ->
       slot_at c' j = slot_at c j).
Proof.
  intros Hex Hid. destruct (free_slot_first c Hex) as [n Hn].
  exists n, (published n msg c).
  destruct Hn as [(s0 & Hs0 & H0) Hbefore].
  pose proof (slot_at_Some_bounds _ _ _ Hs0) as Hnb.
  split; [split; [exists s0; auto | exact Hbefore] |].
  split.
  { rewrite (WriterUpdateMessage_free msg c n)
      by (split; [exists s0; auto | exact Hbefore]).
    destruct (Z.gtb_spec (current_slot_id_ c) 0);
      destruct (Z.ltb_spec (current_slot_id_ c - 1) (Z.of_nat (length (slots c))));
      simpl; try reflexivity; lia. }
  split; [apply current_published |].
  split; [| split].
  - eexists. split; [rewrite slot_at_published by lia; rewrite Hs0; reflexivity |].
    unfold publish_slot. rewrite Z.eqb_refl, (Z.eqb_sym n).
    destruct (Z.eqb_spec (current_slot_id_ c - 1) n) as [Heq|Hne].
    + destruct (Z.gtb_spec (current_slot_id_ c) 0); [| lia]. simpl.
      rewrite H0. split; [reflexivity | apply lor_zero_writer_cleared].
    + rewrite andb_false_r. simpl. rewrite H0. split; reflexivity.
  - intros s Hn0 Hs. pose proof (slot_at_Some_bounds _ _ _ Hs) as Hb.
    eexists. split; [rewrite slot_at_published by lia; rewrite Hs; reflexivity |].
    unfold publish_slot. rewrite Z.eqb_refl.
    destruct (Z.gtb_spec (current_slot_id_ c) 0); [| lia]. simpl.
    unfold used_by_writer. split.
    + rewrite testbit_clear by lia. apply andb_false_r.
    + intros i Hi. rewrite testbit_clear by lia.
      destruct (Z.eqb_spec 31 i); [lia |]. rewrite andb_true_r.
      destruct (Z.eqb_spec (current_slot_id_ c - 1) n) as [Heq|Hne]; [| reflexivity].
      simpl. rewrite testbit_set by lia.
      destruct (Z.eqb_spec 31 i); [lia | apply orb_false_r].
  - intros j Hjn Hjc. rewrite slot_at_published by lia.
    unfold publish_slot.
    destruct (Z.eqb_spec j n); [contradiction |].
    destruct (Z.eqb_spec j (current_slot_id_ c - 1)); [contradiction |].
    rewrite andb_false_r. destruct (slot_at c j) as [[u m]|]; reflexivity.
Qed.

(** ** Sequences of calls *)

Lemma well_formed_zero (N : nat) : well_formed N (zero_container N).
Proof.
  split; [| left; reflexivity].
  unfold zero_container; simpl. rewrite length_replicate. reflexivity.
Qed.

Lemma testbit_writer_after_pin (u p : Z) :
  0 <= p -> Z.testbit u 31 = true ->
  Z.testbit (Z.lor u (Z.shiftl 1 p)) 31 = true.
Proof. intros Hp Hw. rewrite testbit_set, Hw by exact Hp. reflexivity. Qed.

Lemma testbit_writer_after_unpin (u p : Z) :
  0 <= p < 31 ->
  Z.testbit (Z.land u (not32 (Z.shiftl 1 p))) 31 = Z.testbit u 31.
Proof.
  intros Hp. rewrite testbit_clear by lia.
  destruct (Z.eqb_spec p 31); [lia | apply andb_true_r].
Qed.

Lemma current_pin p h c : current_slot_id_ (pin p h c) = current_slot_id_ c.
Proof. reflexivity. Qed.

Lemma current_unpin p h c : current_slot_id_ (unpin p h c) = current_slot_id_ c.
Proof. reflexivity. Qed.

Lemma well_formed_pin N p c :
  0 <= p -> well_formed N c -> current_slot_id_ c <> 0 ->
  well_formed N (pin p (current_slot_id_ c - 1) c).
Proof.
  intros Hp [Hlen [H0 | (s & Hs & Hw)]] Hn0; [contradiction |].
  split.
  - unfold pin. rewrite length_alter_slot. exact Hlen.
  - right. rewrite current_pin.
    eexists. split.
    + rewrite slot_at_pin by (rewrite Hs; discriminate).
      rewrite Hs, Z.eqb_refl. reflexivity.
    + simpl. apply testbit_writer_after_pin; assumption.
Qed.

Lemma well_formed_unpin N p h c :
  0 <= p < 31 -> slot_at c h <> None -> well_formed N c ->
  well_formed N (unpin p h c).
Proof.
  intros Hp Hh [Hlen Hown]. split.
  - unfold unpin. rewrite length_alter_slot. exact Hlen.
  - destruct Hown as [H0 | (s & Hs & Hw)]; [left; exact H0 | right].
    rewrite current_unpin.
    rewrite slot_at_unpin by exact Hh. rewrite Hs.
    destruct (current_slot_id_ c - 1 =? h); eexists; (split; [reflexivity |]).
    + simpl. rewrite testbit_writer_after_unpin by exact Hp. exact Hw.
    + exact Hw.
Qed.

Lemma well_formed_reader_reset N p c :
  0 <= p < 31 -> well_formed N c ->
  well_formed N (alter_range (fun _ => reset_reader_slot p) 0 (length (slots c)) c).
Proof.
  intros Hp [Hlen Hown]. split.
  - rewrite length_alter_range. exact Hlen.
  - unfold current_slot_owned. rewrite current_alter_range.
    destruct Hown as [H0 | (s & Hs & Hw)]; [left; exact H0 | right].
    pose proof (slot_at_Some_bounds _ _ _ Hs) as Hb.
    rewrite slot_at_alter_range by lia. rewrite Hs.
    destruct (_ && _); eexists; (split; [reflexivity |]); [| exact Hw].
    unfold reset_reader_slot. destruct (Z.testbit (used_by s) p); [| exact Hw].
    simpl. rewrite testbit_writer_after_unpin by exact Hp. exact Hw.
Qed.

Lemma well_formed_writer_reset N c :
  well_formed N c ->
  well_formed N (alter_range (reset_writer_slot (current_slot_id_ c)) 0
                   (length (slots c)) c).
Proof.
  intros [Hlen Hown]. split.
  - rewrite length_alter_range. exact Hlen.
  - unfold current_slot_owned. rewrite current_alter_range.
    destruct Hown as [H0 | (s & Hs & Hw)]; [left; exact H0 | right].
    pose proof (slot_at_Some_bounds _ _ _ Hs) as Hb.
    rewrite slot_at_alter_range by lia. rewrite Hs.
    destruct (_ && _); eexists; (split; [reflexivity |]); [| exact Hw].
    unfold reset_writer_slot. rewrite Z.eqb_refl. simpl. exact Hw.
Qed.

Lemma well_formed_published N k msg c :
  first_free_slot c k -> well_formed N c -> well_formed N (published k msg c).
Proof.
  intros [(s0 & Hs0 & H0) _] [Hlen Hown].
  pose proof (slot_at_Some_bounds _ _ _ Hs0) as Hkb.
  split.
  - rewrite length_published. exact Hlen.
  - right. rewrite current_published.
    replace (k + 1 - 1) with k by lia.
    rewrite slot_at_published by lia. rewrite Hs0.
    eexists. split; [reflexivity |].
    unfold publish_slot. rewrite Z.eqb_refl.
    assert (Hother : (current_slot_id_ c >? 0) && (k =? current_slot_id_ c - 1) = false).
    { destruct Hown as [Hz | (s & Hs & Hw)].
      - rewrite Hz. reflexivity.
      - destruct (Z.eqb_spec k (current_slot_id_ c - 1)) as [Heq|Hne];
          [| apply andb_false_r].
        exfalso. rewrite <- Heq, Hs0 in Hs. injection Hs as <-.
        rewrite H0 in Hw. rewrite Z.bits_0 in Hw. discriminate. }
    rewrite Hother. simpl. unfold used_by_writer.
    rewrite testbit_set by lia. apply orb_true_r.
Qed.

(** Reads off the container that a call with a known outcome leaves. *)
Ltac leaves_inv H :=
  let w := fresh "what" in
  destruct H as [H | [w H]]; try discriminate H;
  injection H; intros; subst.

Lemma leaves_well_formed (N : nat) (k : call) (c c' : SharedDataContainer) :
  (N <= 31)%nat ->
  well_formed N c ->
  process_index_ok N k ->
  leaves (perform k c) c' ->
  well_formed N c'.
Proof.
  intros HN Hwf Hk Hleaves.
  destruct k as [| b p | p h | p | h | msg |]; simpl in Hk, Hleaves.
  - (* IsEmpty *)
    unfold bind in Hleaves. rewrite IsEmpty_run in Hleaves.
    leaves_inv Hleaves. exact Hwf.
  - (* ReaderLock *)
    unfold bind in Hleaves.
    destruct (proj2 Hwf) as [H0 | (s & Hs & Hw)].
    + rewrite ReaderLock_with_empty in Hleaves by exact H0.
      leaves_inv Hleaves. exact Hwf.
    + pose proof (slot_at_Some_bounds _ _ _ Hs) as Hb.
      rewrite (ReaderLock_with_owned b p c s) in Hleaves
        by (try assumption; lia).
      destruct (b && Z.testbit (used_by s) p); leaves_inv Hleaves.
      * exact Hwf.
      * apply well_formed_pin; try assumption; lia.
  - (* ReaderUnlock *)
    destruct (slot_at c h) as [s|] eqn:Hs.
    + rewrite (ReaderUnlock_run p h c s) in Hleaves by (try assumption; lia).
      destruct (Z.testbit (used_by s) p); leaves_inv Hleaves.
      * apply well_formed_unpin; try assumption; try lia.
        rewrite Hs. discriminate.
      * exact Hwf.
    + rewrite ReaderUnlock_undefined in Hleaves by exact Hs.
      destruct Hleaves as [H | [w H]]; discriminate H.
  - (* ReaderReset *)
    rewrite ReaderReset_run in Hleaves by lia.
    leaves_inv Hleaves. apply well_formed_reader_reset; [lia | exact Hwf].
  - (* ReaderGetMessage *)
    unfold bind, ReaderGetMessage, load_message in Hleaves.
    destruct (slot_at c h).
    + leaves_inv Hleaves. exact Hwf.
    + destruct Hleaves as [H | [w H]]; discriminate H.
  - (* WriterUpdateMessage *)
    destruct (find_free_slot_cases c) as [(n & Hn & _) | [Hfull _]].
    + rewrite (WriterUpdateMessage_free msg c n Hn) in Hleaves.
      destruct (_ && _).
      * destruct Hleaves as [H | [w H]]; discriminate H.
      * leaves_inv Hleaves. apply well_formed_published; assumption.
    + rewrite WriterUpdateMessage_full in Hleaves by exact Hfull.
      leaves_inv Hleaves. exact Hwf.
  - (* WriterReset *)
    rewrite WriterReset_run in Hleaves.
    leaves_inv Hleaves. apply well_formed_writer_reset. exact Hwf.
Qed.

Lemma reachable_well_formed (N : nat) (c : SharedDataContainer) :
  (N <= 31)%nat -> reachable N c -> well_formed N c.
Proof.
  intros HN Hreach. induction Hreach as [| c c' k _ IH Hk Hleaves].
  - apply well_formed_zero.
  - exact (leaves_well_formed N k c c' HN IH Hk Hleaves).
Qed.

(** ** Invariants of the reachable containers *)

(** C8 (G1): in a container that a sequence of calls has made of the
    zero-filled region, a nonzero [current_slot_id_] names a slot whose state
    word has the writer bit set or the pin bit of some process set. *)
Theorem reachable_current_slot_in_use (N : nat) (c : SharedDataContainer) :
  (N <= 31)%nat ->
  reachable N c ->
  current_slot_id_ c <> 0 ->
  exists s,
    slot_at c (current_slot_id_ c - 1) = Some s /\
    (Z.testbit (used_by s) 31 = true \/
     exists p, 0 <= p < Z.of_nat N /\ Z.testbit (used_by s) p = true).
Proof.
  intros HN Hreach Hn0.
  destruct (reachable_well_formed N c HN Hreach) as [_ [H0 | (s & Hs & Hw)]].
  - contradiction.
  - exists s. split; [exact Hs | left; exact Hw].
Qed.

(** C10: in a reachable container [current_slot_id_] lies in
    [0 .. number_of_processes + 1]; a handle that [ReaderLock] returns there
    is a slot index in [0 .. number_of_processes], and in every reachable
    container [ReaderGetMessage] and [ReaderUnlock] on that handle stay
    inside the slot array: the first returns the message of that slot, the
    second has a defined outcome. *)
Theorem reachable_handles_in_bounds (N : nat) (c : SharedDataContainer) :
  (N <= 31)%nat ->
  reachable N c ->
  0 <= current_slot_id_ c <= Z.of_nat N + 1 /\
  forall in_header p h c',
    ReaderLock_with in_header p c = Returns h c' ->
    0 <= h <= Z.of_nat N /\
    forall c'', reachable N c'' ->
      (exists s, slot_at c'' h = Some s /\
                 ReaderGetMessage h c'' = Returns (message s) c'') /\
      (forall q, 0 <= q < Z.of_nat N -> ReaderUnlock q h c'' <> Undefined).
Proof.
  intros HN Hreach.
  destruct (reachable_well_formed N c HN Hreach) as [Hlen Hown].
  split.
  - destruct Hown as [H0 | (s & Hs & _)]; [lia |].
    apply slot_at_Some_bounds in Hs. lia.
  - intros b p h c' Hlock.
    apply ReaderLock_with_returns in Hlock
      as (_ & _ & _ & (s & Hs & _) & _).
    pose proof (slot_at_Some_bounds _ _ _ Hs) as Hb.
    split; [lia |].
    intros c'' Hreach''.
    destruct (reachable_well_formed N c'' HN Hreach'') as [Hlen'' _].
    destruct (slot_at_in_bounds c'' h) as [s'' Hs'']; [lia |].
    split.
    + exists s''. split; [exact Hs'' | apply ReaderGetMessage_run; exact Hs''].
    + intros q Hq. rewrite (ReaderUnlock_run q h c'' s'') by (try assumption; lia).
      destruct (Z.testbit (used_by s'') q); discriminate.
Qed.

(** ** Retained handles *)

Lemma bind_returns {A B} (m : M A) (f : A -> M B) c b c' :
  bind m f c = Returns b c' ->
  exists a c1, m c = Returns a c1 /\ f a c1 = Returns b c'.
Proof.
  unfold bind. destruct (m c) as [a c1| | |]; try discriminate.
  intros H. exists a, c1. split; [reflexivity | exact H].
Qed.

Lemma testbit_nonzero (u p : Z) : Z.testbit u p = true -> u <> 0.
Proof. intros Hb ->. rewrite Z.bits_0 in Hb. discriminate. Qed.

(** [WriterUpdateMessage] writes no message into a slot whose state word is
    nonzero, and clears no bit but the writer bit. *)
Lemma WriterUpdateMessage_keeps_used_slot msg c c' j s :
  WriterUpdateMessage msg c = Returns tt c' ->
  slot_at c j = Some s -> used_by s <> 0 ->
  exists s', slot_at c' j = Some s' /\ message s' = message s /\
    forall i, 0 <= i < 31 -> Z.testbit (used_by s') i = Z.testbit (used_by s) i.
Proof.
  intros Hrun Hs Hn0.
  apply WriterUpdateMessage_returns in Hrun
    as (k & [(s0 & Hs0 & H0) _] & -> & _).
  pose proof (slot_at_Some_bounds _ _ _ Hs0) as Hkb.
  assert (Hjk : j <> k).
  { intros ->. rewrite Hs0 in Hs. injection Hs as <-. contradiction. }
  eexists. split; [rewrite slot_at_published by lia; rewrite Hs; reflexivity |].
  unfold publish_slot. destruct (Z.eqb_spec j k); [contradiction |].
  destruct (_ && _); simpl; split; try reflexivity.
  intros i Hi. unfold used_by_writer. rewrite testbit_clear by lia.
  destruct (Z.eqb_spec 31 i); [lia | apply andb_true_r].
Qed.

Lemma WriterUpdateMessage_keeps_pinned p h msg m c c' :
  0 <= p < 31 ->
  WriterUpdateMessage m c = Returns tt c' ->
  pinned_with p h msg c -> pinned_with p h msg c'.
Proof.
  intros Hp Hrun (s & Hs & Hb & Hm).
  destruct (WriterUpdateMessage_keeps_used_slot m c c' h s Hrun Hs)
    as (s' & Hs' & Hm' & Hbits); [exact (testbit_nonzero _ _ Hb) |].
  exists s'. split; [exact Hs' |]. split; [| congruence].
  rewrite Hbits by lia. exact Hb.
Qed.

Lemma ReaderLock_keeps_pinned in_header p q h h' msg c c' :
  ReaderLock_with in_header q c = Returns h' c' ->
  pinned_with p h msg c -> pinned_with p h msg c'.
Proof.
  intros Hlock (s & Hs & Hb & Hm).
  apply ReaderLock_with_returns in Hlock
    as (Hq & _ & _ & (s1 & Hs1 & _) & ->).
  eexists. split.
  - rewrite slot_at_pin by (rewrite Hs1; discriminate). rewrite Hs. reflexivity.
  - destruct (h =? h'); simpl; split; try assumption.
    rewrite testbit_set by lia. rewrite Hb. reflexivity.
Qed.

(** The handle that a lock right after a write returns carries the message
    just written. *)
Lemma ReaderLock_after_write in_header p h msg c c1 c2 :
  WriterUpdateMessage msg c = Returns tt c1 ->
  ReaderLock_with in_header p c1 = Returns h c2 ->
  pinned_with p h msg c2.
Proof.
  intros Hrun Hlock.
  apply WriterUpdateMessage_returns in Hrun
    as (k & [(s0 & Hs0 & H0) _] & -> & _).
  pose proof (slot_at_Some_bounds _ _ _ Hs0) as Hkb.
  apply ReaderLock_with_returns in Hlock
    as (Hp & _ & -> & (s1 & Hs1 & _) & ->).
  rewrite current_published in *.
  replace (k + 1 - 1) with k in * by lia.
  eexists. split.
  - rewrite slot_at_pin by (rewrite Hs1; discriminate).
    rewrite Hs1, Z.eqb_refl. reflexivity.
  - simpl. split.
    + rewrite testbit_set, Z.eqb_refl by lia. apply orb_true_r.
    + rewrite slot_at_published in Hs1 by lia. rewrite Hs0 in Hs1.
      injection Hs1 as <-. unfold publish_slot. rewrite Z.eqb_refl.
      destruct (_ && _); reflexivity.
Qed.

Lemma publish_all_keeps_pinned p h msg more c c' :
  0 <= p < 31 ->
  publish_all more c = Returns tt c' ->
  pinned_with p h msg c -> pinned_with p h msg c'.
Proof.
  intros Hp. revert c. induction more as [|m more IH]; intros c Hrun Hpin.
  - injection Hrun as <-. exact Hpin.
  - simpl in Hrun. apply bind_returns in Hrun as ([] & c1 & Hw & Hrest).
    apply (IH c1 Hrest).
    exact (WriterUpdateMessage_keeps_pinned p h msg m c c1 Hp Hw Hpin).
Qed.

Lemma publish_and_lock_pins in_header p msgs :
  0 <= p < 31 ->
  forall c hs c',
    publish_and_lock in_header p msgs c = Returns hs c' ->
    Forall2 (fun h msg => pinned_with p h msg c') hs msgs /\
    (forall h msg, pinned_with p h msg c -> pinned_with p h msg c').
Proof.
  intros Hp. induction msgs as [|msg rest IH]; intros c hs c' Hrun.
  - injection Hrun as <- <-. split; [constructor | auto].
  - simpl in Hrun.
    apply bind_returns in Hrun as ([] & c1 & Hw & Hrun).
    apply bind_returns in Hrun as (h & c2 & Hl & Hrun).
    apply bind_returns in Hrun as (hs' & c3 & Hrest & Hret).
    injection Hret as <- <-.
    destruct (IH c2 hs' c3 Hrest) as [Hall Hkeep].
    split.
    + constructor; [| exact Hall].
      apply Hkeep. exact (ReaderLock_after_write _ _ _ _ _ _ _ Hw Hl).
    + intros h0 m0 Hpin. apply Hkeep.
      apply (ReaderLock_keeps_pinned _ p p h0 h _ c1 c2 Hl).
      exact (WriterUpdateMessage_keeps_pinned p h0 m0 msg c c1 Hp Hw Hpin).
Qed.

(** C2: when the messages [msgs] are written one after the other, process
    [p] locks the current slot after each write and never unlocks, and any
    further messages [more] are written afterwards, then in the end
    [ReaderGetMessage] on the handle of the i-th lock returns the i-th
    message; and a returning [WriterUpdateMessage] leaves the message of
    every slot whose state word is nonzero as it was. *)
Theorem retained_handles_keep_their_messages
    (in_header : bool) (p : Z) (msgs more : list Message)
    (c c' : SharedDataContainer) (hs : list Z) :
  0 <= p < 31 ->
  (hs <- publish_and_lock in_header p msgs ;;
   publish_all more ;;; ret hs) c = Returns hs c' ->
  Forall2 (fun h msg => ReaderGetMessage h c' = Returns msg c') hs msgs /\
  (forall msg c1 c2 j s,
     WriterUpdateMessage msg c1 = Returns tt c2 ->
     slot_at c1 j = Some s -> used_by s <> 0 ->
     exists s', slot_at c2 j = Some s' /\ message s' = message s).
Proof.
  intros Hp Hrun. split.
  - apply bind_returns in Hrun as (hs' & c1 & Hlocks & Hrun).
    apply bind_returns in Hrun as ([] & c2 & Hmore & Hret).
    injection Hret as -> <-.
    destruct (publish_and_lock_pins in_header p msgs Hp c hs c1 Hlocks)
      as [Hall _].
    eapply Forall2_impl; [exact Hall |].
    intros h msg Hpin. simpl.
    apply (publish_all_keeps_pinned p h msg more c1 c2 Hp Hmore) in Hpin
      as (s & Hs & _ & <-).
    apply ReaderGetMessage_run. exact Hs.
  - intros msg c1 c2 j s Hw Hs Hn0.
    destruct (WriterUpdateMessage_keeps_used_slot msg c1 c2 j s Hw Hs Hn0)
      as (s' & Hs' & Hm & _).
    exists s'. split; assumption.
Qed.

(** ** The slot count *)

(** Fewer candidates than indices: some index is no candidate. *)
Lemma index_outside (candidates : list Z) (n : nat) :
  (length candidates < n)%nat ->
  exists j, 0 <= j < Z.of_nat n /\ j ∉ candidates.
Proof.
  intros Hlt.
  set (indices := Z.of_nat <$> seq 0 n).
  assert (Hnodup : NoDup indices).
  { apply NoDup_fmap_2; [intros x y; lia | apply NoDup_seq]. }
  assert (Hlen : length indices = n).
  { unfold indices. rewrite length_fmap, length_seq. reflexivity. }
  destruct (decide (Forall (fun j => j ∈ candidates) indices)) as [Hall|Hnot].
  - exfalso. rewrite Forall_forall in Hall.
    pose proof (submseteq_length _ _ (NoDup_submseteq _ _ Hnodup Hall)). lia.
  - apply not_Forall_Exists in Hnot; [| intros j; apply _].
    apply Exists_exists in Hnot as (j & Hin & Hout).
    exists j. split; [| exact Hout].
    unfold indices in Hin. apply list_elem_of_fmap in Hin as (i & -> & Hi).
    apply elem_of_seq in Hi. lia.
Qed.

Lemma slot_at_free_Exists (c : SharedDataContainer) (j : Z) (s : Slot) :
  slot_at c j = Some s -> used_by s = 0 ->
  Exists (fun s => used_by s = 0) (slots c).
Proof.
  intros Hs H0. apply Exists_exists. exists s. split; [| exact H0].
  pose proof (slot_at_Some_bounds _ _ _ Hs).
  rewrite slot_at_lookup in Hs by lia.
  apply list_elem_of_lookup. exists (Z.to_nat j). exact Hs.
Qed.

Lemma WriterUpdateMessage_returns_when_free (msg : Message)
    (c : SharedDataContainer) :
  Exists (fun s => used_by s = 0) (slots c) ->
  current_slot_id_ c <= Z.of_nat (length (slots c)) ->
  exists k, first_free_slot c k /\
            WriterUpdateMessage msg c = Returns tt (published k msg c).
Proof.
  intros Hex Hid. destruct (free_slot_first c Hex) as [k Hk].
  exists k. split; [exact Hk |].
  rewrite (WriterUpdateMessage_free msg c k Hk).
  destruct (Z.gtb_spec (current_slot_id_ c) 0);
    destruct (Z.ltb_spec (current_slot_id_ c - 1) (Z.of_nat (length (slots c))));
    simpl; try reflexivity; lia.
Qed.

(** With a free slot and a current slot that only the writer uses, two
    writes in a row return: the first frees the slot the second can take. *)
Lemma two_writes_return (m1 m2 : Message) (c : SharedDataContainer) (s : Slot) :
  slot_at c (current_slot_id_ c - 1) = Some s ->
  used_by s = used_by_writer ->
  Exists (fun s => used_by s = 0) (slots c) ->
  exists c1 c2,
    WriterUpdateMessage m1 c = Returns tt c1 /\
    WriterUpdateMessage m2 c1 = Returns tt c2.
Proof.
  intros Hs Hw Hex.
  pose proof (slot_at_Some_bounds _ _ _ Hs) as Hb.
  destruct (WriterUpdateMessage_returns_when_free m1 c Hex) as (k & Hk & Hrun1);
    [lia |].
  destruct Hk as [(s0 & Hs0 & H0) Hbefore].
  pose proof (slot_at_Some_bounds _ _ _ Hs0) as Hkb.
  assert (Hne : current_slot_id_ c - 1 <> k).
  { intros Heq. rewrite Heq, Hs0 in Hs. injection Hs as <-.
    rewrite H0 in Hw. discriminate. }
  set (c1 := published k m1 c) in *.
  assert (Hfree1 : Exists (fun s => used_by s = 0) (slots c1)).
  { apply (slot_at_free_Exists c1 (current_slot_id_ c - 1)
             (publish_slot (current_slot_id_ c) k m1 (current_slot_id_ c - 1) s)).
    - unfold c1. rewrite slot_at_published by lia. rewrite Hs. reflexivity.
    - unfold publish_slot.
      destruct (Z.eqb_spec (current_slot_id_ c - 1) k); [contradiction |].
      rewrite Z.eqb_refl.
      destruct (Z.gtb_spec (current_slot_id_ c) 0); [| lia].
      simpl. rewrite Hw. reflexivity. }
  destruct (WriterUpdateMessage_returns_when_free m2 c1 Hfree1) as (k2 & _ & Hrun2).
  { unfold c1. rewrite current_published, length_published. lia. }
  exists c1, (published k2 m2 c1). split; assumption.
Qed.

(** C3 (G2): when [N - 1] processes each hold one pin, each on a slot of its
    own, and one further slot is the current slot with the writer mark, then
    two calls of [WriterUpdateMessage] in a row both return; neither throws
    the no-free-slot error. *)
Theorem two_writes_with_all_readers_pinned
    (N : nat) (c : SharedDataContainer) (readers : list Z) (slot_of : Z -> Z)
    (m1 m2 : Message) :
  (1 <= N)%nat ->
  one_pin_per_reader N c readers slot_of ->
  exists c1 c2,
    WriterUpdateMessage m1 c = Returns tt c1 /\
    WriterUpdateMessage m2 c1 = Returns tt c2.
Proof.
  intros HN H.
  destruct (opr_current _ _ _ _ H) as (s & Hs & Hw).
  apply (two_writes_return m1 m2 c s Hs Hw).
  destruct (index_outside ((current_slot_id_ c - 1) :: (slot_of <$> readers)) (S N))
    as (j & Hj & Hout).
  { simpl. rewrite length_fmap, (opr_count _ _ _ _ H). lia. }
  rewrite not_elem_of_cons in Hout. destruct Hout as [Hcur Himg].
  destruct (slot_at_in_bounds c j) as [sj Hsj];
    [rewrite (opr_size _ _ _ _ H); lia |].
  apply (slot_at_free_Exists c j sj Hsj).
  apply (opr_rest _ _ _ _ H j sj Hsj Hcur).
  intros p Hp Heq. apply Himg. rewrite <- Heq.
  apply list_elem_of_fmap. exists p. split; [reflexivity | exact Hp].
Qed.

(** ** The argument check of [main] *)

(** For an index that fits an [int], [main] returns 1 exactly when the
    argument is missing, the index is negative, or the index is above the
    number of processes; it goes on for every index up to and including that
    number. *)
Lemma main_startup_exits (N argc parsed : Z) :
  0 <= N < 2 ^ 31 -> - 2 ^ 31 <= parsed < 2 ^ 31 ->
  main_startup N argc parsed =
    if (argc <? 2) || (parsed <? 0) || (N <? parsed) then Exit 1
    else Runs parsed.
Proof.
  intros HN Hp. unfold main_startup, to_unsigned.
  destruct (Z.ltb_spec argc 2); simpl; [reflexivity |].
  destruct (Z.ltb_spec parsed 0); simpl.
  - replace (parsed mod 2 ^ 32) with (parsed + 2 ^ 32)
      by (apply Z.mod_unique with (q := -1); lia).
    destruct (Z.gtb_spec (parsed + 2 ^ 32) N); [reflexivity | lia].
  - rewrite Z.mod_small by lia.
    destruct (Z.gtb_spec parsed N), (Z.ltb_spec N parsed);
      try reflexivity; lia.
Qed.

(** C9, at the index equal to the number of processes: built for three
    processes and given the argument 3, an index outside [0, 3), [main] does
    not return a status but goes on to start the producer (the message of
    the check names [number_of_processes - 1] as the largest index); the
    indices 2, 4 and -1 and a missing argument are treated as specified. *)
Theorem main_accepts_index_equal_to_process_count :
  main_startup 3 2 3 = Runs 3 /\
  main_startup 3 2 2 = Runs 2 /\
  main_startup 3 2 4 = Exit 1 /\
  main_startup 3 2 (-1) = Exit 1 /\
  main_startup 3 1 0 = Exit 1.
Proof. repeat split; reflexivity. Qed.

(** ** The unit tests of the repository, on three processes *)

Example test_lock_empty :
  ReaderLock 0 (zero_container 3) = Throws EMPTY (zero_container 3).
Proof. reflexivity. Qed.

Example test_empty :
  IsEmpty (zero_container 3) = Returns true (zero_container 3).
Proof. reflexivity. Qed.

Example test_double_lock :
  (WriterUpdateMessage (mkMessage 5) ;;; ReaderLock 0 ;;; ReaderLock 0)
    (zero_container 3) = Throws DOUBLE_LOCK locked_once.
Proof. reflexivity. Qed.

Example test_several_locks :
  (WriterUpdateMessage (mkMessage 5) ;;;
   handle0 <- ReaderLock 0 ;; handle1 <- ReaderLock 1 ;; handle2 <- ReaderLock 2 ;;
   ReaderUnlock 1 handle1 ;;; ReaderUnlock 0 handle0 ;;; ReaderUnlock 2 handle2)
    (zero_container 3)
  = Returns tt
      (mkContainer 1 [mkSlot used_by_writer (mkMessage 5); zero_slot; zero_slot; zero_slot]).
Proof. reflexivity. Qed.

Example test_lock_several_slots :
  (WriterUpdateMessage (mkMessage 10) ;;; handle1 <- ReaderLock 0 ;;
   WriterUpdateMessage (mkMessage 20) ;;; handle2 <- ReaderLock 0 ;;
   WriterUpdateMessage (mkMessage 30) ;;;
   m1 <- ReaderGetMessage handle1 ;; m2 <- ReaderGetMessage handle2 ;;
   ret (val m1, val m2)) (zero_container 3)
  = Returns (10, 20) three_writes.
Proof. reflexivity. Qed.

Example test_unlock_anothers_handle_same_slot :
  (WriterUpdateMessage (mkMessage 5) ;;;
   handle1 <- ReaderLock 0 ;; handle2 <- ReaderLock 1 ;;
   ReaderUnlock 0 handle2 ;;; ReaderUnlock 1 handle1) (zero_container 3)
  = Returns tt
      (mkContainer 1 [mkSlot used_by_writer (mkMessage 5); zero_slot; zero_slot; zero_slot]).
Proof. reflexivity. Qed.

Example test_unlock_anothers_handle_other_slot :
  exists c,
    (WriterUpdateMessage (mkMessage 5) ;;; handle1 <- ReaderLock 0 ;;
     WriterUpdateMessage (mkMessage 6) ;;; handle2 <- ReaderLock 1 ;;
     ret (handle1, handle2)) (zero_container 3) = Returns (0, 1) c /\
    ReaderUnlock 0 1 c = Throws NOT_LOCKED c /\
    ReaderUnlock 1 0 c = Throws NOT_LOCKED c.
Proof. eexists. repeat split; reflexivity. Qed.

Example test_writes_all_readers_locked :
  exists c,
    (WriterUpdateMessage (mkMessage 0) ;;; ReaderLock 0 ;;;
     WriterUpdateMessage (mkMessage 10) ;;; ReaderLock 1 ;;;
     WriterUpdateMessage (mkMessage 1) ;;; WriterUpdateMessage (mkMessage 2) ;;;
     ReaderUnlock 0 0 ;;; ReaderUnlock 1 1) (zero_container 3) = Returns tt c.
Proof. eexists. reflexivity. Qed.

Example test_writes_one_process_locked_all :
  exists c,
    (WriterUpdateMessage (mkMessage 0) ;;; ReaderLock 0 ;;;
     WriterUpdateMessage (mkMessage 10) ;;; ReaderLock 0 ;;;
     WriterUpdateMessage (mkMessage 20) ;;; ReaderLock 0 ;;;
     WriterUpdateMessage (mkMessage 30) ;;; ReaderLock 0 ;;;
     WriterUpdateMessage (mkMessage 1)) (zero_container 3)
    = Throws NO_FREE_SLOT c.
Proof. eexists. reflexivity. Qed.

(** ** Instances on the containers of the unit tests *)

Lemma reachable_written_once : reachable 3 written_once.
Proof.
  apply (reachable_call 3 (zero_container 3) written_once
           (CallWriterUpdateMessage (mkMessage 10))).
  - apply reachable_zero.
  - exact I.
  - left. reflexivity.
Defined.

Lemma one_pin_per_reader_readers_pinned :
  one_pin_per_reader 3 readers_pinned [0; 1] (fun p => p).
Proof.
  assert (Hin : forall p : Z, p ∈ [0; 1] -> p = 0 \/ p = 1).
  { intros p Hp. apply list_elem_of_In in Hp. simpl in Hp. lia. }
  split.
  - reflexivity.
  - reflexivity.
  - split.
    + apply NoDup_cons. split.
      * intros H0. apply list_elem_of_In in H0. simpl in H0. lia.
      * apply NoDup_singleton.
    + intros p Hp. apply Hin in Hp. lia.
  - intros p q _ _ Heq. exact Heq.
  - intros p Hp. apply Hin in Hp as [-> | ->]; eexists; split; reflexivity.
  - eexists. split; reflexivity.
  - intros j s Hs Hcur Hout.
    pose proof (slot_at_Some_bounds _ _ _ Hs) as Hb. simpl in Hb, Hcur.
    assert (H0 : j <> 0) by (intros ->; apply (Hout 0); [left | reflexivity]).
    assert (H1 : j <> 1)
      by (intros ->; apply (Hout 1); [right; left | reflexivity]).
    assert (j = 3) as -> by lia.
    injection Hs as <-. reflexivity.
Defined.

Lemma retained_handles_witness :
  0 <= 0 < 31 /\
  (hs <- publish_and_lock true 0 [mkMessage 10; mkMessage 20] ;;
   publish_all [mkMessage 30] ;;; ret hs) (zero_container 3)
    = Returns [0; 1] three_writes /\
  Forall2 (fun h msg => ReaderGetMessage h three_writes = Returns msg three_writes)
    [0; 1] [mkMessage 10; mkMessage 20].
Proof.
  split; [lia |]. split; [reflexivity |].
  apply (retained_handles_keep_their_messages true 0
           [mkMessage 10; mkMessage 20] [mkMessage 30]
           (zero_container 3) three_writes [0; 1]); [lia | reflexivity].
Defined.

Lemma two_writes_witness :
  (1 <= 3)%nat /\
  one_pin_per_reader 3 readers_pinned [0; 1] (fun p => p) /\
  exists c1 c2,
    WriterUpdateMessage (mkMessage 1) readers_pinned = Returns tt c1 /\
    WriterUpdateMessage (mkMessage 2) c1 = Returns tt c2.
Proof.
  split; [lia |]. split; [exact one_pin_per_reader_readers_pinned |].
  apply (two_writes_with_all_readers_pinned 3 readers_pinned [0; 1] (fun p => p));
    [lia | exact one_pin_per_reader_readers_pinned].
Defined.

Lemma takes_first_free_slot_witness :
  Exists (fun s => used_by s = 0) (slots written_once) /\
  current_slot_id_ written_once <= Z.of_nat (length (slots written_once)) /\
  exists n c',
    first_free_slot written_once n /\
    WriterUpdateMessage (mkMessage 20) written_once = Returns tt c' /\
    current_slot_id_ c' = n + 1.
Proof.
  assert (Hfree : Exists (fun s => used_by s = 0) (slots written_once))
    by (apply Exists_cons_tl, Exists_cons_hd; reflexivity).
  assert (Hid : current_slot_id_ written_once
                <= Z.of_nat (length (slots written_once)))
    by (simpl; lia).
  split; [exact Hfree |]. split; [exact Hid |].
  destruct (WriterUpdateMessage_takes_first_free_slot (mkMessage 20)
              written_once Hfree Hid) as (n & c' & Hn & Hrun & Hcur & _).
  exists n, c'. repeat split; try assumption; apply Hn.
Defined.

Lemma unlock_witness :
  0 <= 0 < 32 /\
  slot_at locked_by_two 0 = Some (mkSlot (Z.lor used_by_writer 3) (mkMessage 5)) /\
  exists c', ReaderUnlock 0 0 locked_by_two = Returns tt c'.
Proof.
  split; [lia |]. split; [reflexivity |].
  destruct (ReaderUnlock_clears_own_bit 0 0 locked_by_two
              (mkSlot (Z.lor used_by_writer 3) (mkMessage 5)))
    as [_ Hset]; [lia | reflexivity |].
  destruct (Hset eq_refl) as (c' & _ & Hrun & _).
  exists c'. exact Hrun.
Defined.

Lemma current_slot_in_use_witness :
  (3 <= 31)%nat /\ reachable 3 written_once /\
  current_slot_id_ written_once <> 0 /\
  exists s,
    slot_at written_once (current_slot_id_ written_once - 1) = Some s /\
    (Z.testbit (used_by s) 31 = true \/
     exists p, 0 <= p < Z.of_nat 3 /\ Z.testbit (used_by s) p = true).
Proof.
  assert (H31 : (3 <= 31)%nat) by lia.
  assert (Hn0 : current_slot_id_ written_once <> 0) by discriminate.
  split; [exact H31 |]. split; [exact reachable_written_once |].
  split; [exact Hn0 |].
  exact (reachable_current_slot_in_use 3 written_once H31
           reachable_written_once Hn0).
Defined.

Lemma handles_in_bounds_witness :
  (3 <= 31)%nat /\ reachable 3 written_once /\
  0 <= current_slot_id_ written_once <= Z.of_nat 3 + 1.
Proof.
  assert (H31 : (3 <= 31)%nat) by lia.
  split; [exact H31 |]. split; [exact reachable_written_once |].
  exact (proj1 (reachable_handles_in_bounds 3 written_once H31
                  reachable_written_once)).
Defined.

(** ** Further properties of the container *)

Lemma testbit_land_true (u m i : Z) :
  Z.testbit (Z.land u m) i = true -> Z.testbit u i = true.
Proof. rewrite Z.land_spec. intros H. apply andb_true_iff in H. apply H. Qed.

(** A word with no bit at 32 or above is a 32-bit word. *)
Lemma word32_of_bits (u : Z) :
  (forall i, 32 <= i -> Z.testbit u i = false) -> 0 <= u < 2 ^ 32.
Proof.
  intros Hhigh.
  assert (Heq : u = u mod 2 ^ 32).
  { apply Z.bits_inj'. intros i Hi.
    destruct (Z.lt_ge_cases i 32) as [Hlt|Hge].
    - rewrite Z.mod_pow2_bits_low by lia. reflexivity.
    - rewrite Z.mod_pow2_bits_high by lia. apply Hhigh. exact Hge. }
  rewrite Heq. apply Z.mod_pos_bound. lia.
Qed.

Lemma word32_high_bits (u i : Z) :
  0 <= u < 2 ^ 32 -> 32 <= i -> Z.testbit u i = false.
Proof.
  intros Hu Hi. rewrite <- (Z.mod_small u (2 ^ 32)) by exact Hu.
  apply Z.mod_pow2_bits_high. lia.
Qed.

(** Two containers with the same [current_slot_id_] and the same slots are
    the same container. *)
Lemma container_ext (c c' : SharedDataContainer) :
  current_slot_id_ c = current_slot_id_ c' ->
  (forall j, 0 <= j -> slot_at c j = slot_at c' j) ->
  c = c'.
Proof.
  destruct c as [id l], c' as [id' l']. simpl. intros -> Hslots. f_equal.
  apply list_eq. intros i.
  specialize (Hslots (Z.of_nat i) ltac:(lia)).
  rewrite !slot_at_lookup in Hslots by lia. simpl in Hslots.
  rewrite Nat2Z.id in Hslots. exact Hslots.
Qed.

(** Setting a clear bit and clearing it again gives back a 32-bit word. *)
Lemma clear_after_set (u p : Z) :
  0 <= p < 32 -> 0 <= u < 2 ^ 32 -> Z.testbit u p = false ->
  Z.land (Z.lor u (Z.shiftl 1 p)) (not32 (Z.shiftl 1 p)) = u.
Proof.
  intros Hp Hu Hb. apply Z.bits_inj'. intros i Hi.
  destruct (Z.lt_ge_cases i 32) as [Hlt|Hge].
  - rewrite testbit_clear, testbit_set by lia.
    destruct (Z.eqb_spec p i) as [<-|_]; simpl.
    + rewrite Hb. reflexivity.
    + rewrite orb_false_r. apply andb_true_r.
  - rewrite Z.land_spec. unfold not32.
    rewrite Z.mod_pow2_bits_high by lia.
    rewrite (word32_high_bits u i) by assumption. apply andb_false_r.
Qed.

(** A finished call on a well formed container has thrown and left the
    container alone, or has altered it in one of five ways. *)
Lemma leaves_touched (N : nat) (k : call) (c c' : SharedDataContainer) :
  (N <= 31)%nat ->
  well_formed N c ->
  process_index_ok N k ->
  leaves (perform k c) c' ->
  touched N c c'.
Proof.
  intros HN Hwf Hk Hleaves.
  destruct k as [| b p | p h | p | h | msg |]; simpl in Hk, Hleaves.
  - unfold bind in Hleaves. rewrite IsEmpty_run in Hleaves.
    leaves_inv Hleaves. constructor.
  - unfold bind in Hleaves.
    destruct (proj2 Hwf) as [H0 | (s & Hs & Hw)].
    + rewrite ReaderLock_with_empty in Hleaves by exact H0.
      leaves_inv Hleaves. constructor.
    + pose proof (slot_at_Some_bounds _ _ _ Hs) as Hb.
      rewrite (ReaderLock_with_owned b p c s) in Hleaves
        by (try assumption; lia).
      destruct (b && Z.testbit (used_by s) p); leaves_inv Hleaves.
      * constructor.
      * apply touched_pin; [exact Hk | lia].
  - destruct (slot_at c h) as [s|] eqn:Hs.
    + rewrite (ReaderUnlock_run p h c s) in Hleaves by (try assumption; lia).
      destruct (Z.testbit (used_by s) p); leaves_inv Hleaves.
      * apply touched_unpin; [exact Hk | rewrite Hs; discriminate].
      * constructor.
    + rewrite ReaderUnlock_undefined in Hleaves by exact Hs.
      destruct Hleaves as [H | [w H]]; discriminate H.
  - rewrite ReaderReset_run in Hleaves by lia.
    leaves_inv Hleaves. apply touched_reader_reset. exact Hk.
  - unfold bind, ReaderGetMessage, load_message in Hleaves.
    destruct (slot_at c h).
    + leaves_inv Hleaves. constructor.
    + destruct Hleaves as [H | [w H]]; discriminate H.
  - destruct (find_free_slot_cases c) as [(n & Hn & _) | [Hfull _]].
    + rewrite (WriterUpdateMessage_free msg c n Hn) in Hleaves.
      destruct (_ && _).
      * destruct Hleaves as [H | [w H]]; discriminate H.
      * leaves_inv Hleaves. apply touched_published. exact Hn.
    + rewrite WriterUpdateMessage_full in Hleaves by exact Hfull.
      leaves_inv Hleaves. constructor.
  - rewrite WriterReset_run in Hleaves.
    leaves_inv Hleaves. apply touched_writer_reset.
Qed.

(** X1: on a container whose current slot carries the writer mark and not
    the bit of process [p], [ReaderLock(p)] (either copy) returns the index
    of the current slot; bit [p] of that slot's state word is then set, every
    other bit of it, its message, every other slot and [current_slot_id_]
    are as before. *)
Theorem ReaderLock_pins_current_slot
    (in_header : bool) (p : Z) (c : SharedDataContainer) (s : Slot) :
  0 <= p < 32 ->
  current_slot_id_ c <> 0 ->
  slot_at c (current_slot_id_ c - 1) = Some s ->
  Z.testbit (used_by s) 31 = true ->
  Z.testbit (used_by s) p = false ->
  exists c' s',
    ReaderLock_with in_header p c = Returns (current_slot_id_ c - 1) c' /\
    current_slot_id_ c' = current_slot_id_ c /\
    slot_at c' (current_slot_id_ c - 1) = Some s' /\
    message s' = message s /\
    (forall i, Z.testbit (used_by s') i
               = if i =? p then true else Z.testbit (used_by s) i) /\
    (forall j, j <> current_slot_id_ c - 1 -> slot_at c' j = slot_at c j).
Proof.
  intros Hp Hid Hs Hw Hb.
  assert (Hh : slot_at c (current_slot_id_ c - 1) <> None)
    by (rewrite Hs; discriminate).
  exists (pin p (current_slot_id_ c - 1) c),
         (with_used_by (fun u => Z.lor u (Z.shiftl 1 p)) s).
  split.
  { rewrite (ReaderLock_with_owned in_header p c s) by assumption.
    rewrite Hb, andb_false_r. reflexivity. }
  split; [reflexivity |]. split; [| split; [reflexivity | split]].
  - rewrite slot_at_pin by exact Hh. rewrite Hs, Z.eqb_refl. reflexivity.
  - intros i. simpl. rewrite testbit_set by lia. rewrite (Z.eqb_sym i p).
    destruct (p =? i); [apply orb_true_r | apply orb_false_r].
  - intros j Hne. rewrite slot_at_pin by exact Hh.
    destruct (Z.eqb_spec j (current_slot_id_ c - 1)); [contradiction |].
    destruct (slot_at c j); reflexivity.
Qed.


(** X3: [ReaderReset(p)] returns on every container; afterwards bit [p] is
    clear in every state word, and every other bit of every word, every
    message and [current_slot_id_] are as before. *)
Theorem ReaderReset_clears_own_bits (p : Z) (c : SharedDataContainer) :
  0 <= p < 32 ->
  exists c',
    ReaderReset p c = Returns tt c' /\
    current_slot_id_ c' = current_slot_id_ c /\
    length (slots c') = length (slots c) /\
    forall j s, slot_at c j = Some s ->
      exists s',
        slot_at c' j = Some s' /\
        message s' = message s /\
        Z.testbit (used_by s') p = false /\
        (forall i, 0 <= i < 32 -> i <> p ->
           Z.testbit (used_by s') i = Z.testbit (used_by s) i).
Proof.
  intros Hp. eexists. split; [apply ReaderReset_run; exact Hp |].
  split; [apply current_alter_range |].
  split; [apply length_alter_range |].
  intros j s Hs. pose proof (slot_at_Some_bounds _ _ _ Hs) as Hj.
  exists (reset_reader_slot p s). split.
  - rewrite slot_at_alter_range by lia. rewrite Hs.
    destruct (Z.leb_spec 0 j), (Z.ltb_spec j (0 + Z.of_nat (length (slots c))));
      simpl; try reflexivity; lia.
  - unfold reset_reader_slot.
    destruct (Z.testbit (used_by s) p) eqn:Hb; simpl.
    + split; [reflexivity |]. split.
      * rewrite testbit_clear, Z.eqb_refl by lia. apply andb_false_r.
      * intros i Hi Hne. rewrite testbit_clear by lia.
        destruct (Z.eqb_spec p i); [congruence | apply andb_true_r].
    + repeat split. exact Hb.
Qed.

(** X5: a [ReaderLock(p)] followed by the [ReaderUnlock] of the returned
    handle gives back the container as it was, when the current slot carries
    the writer mark and not yet the bit of [p]. *)
Theorem ReaderLock_ReaderUnlock_round_trip
    (in_header : bool) (p : Z) (c : SharedDataContainer) (s : Slot) :
  0 <= p < 31 ->
  current_slot_id_ c <> 0 ->
  slot_at c (current_slot_id_ c - 1) = Some s ->
  0 <= used_by s < 2 ^ 32 ->
  Z.testbit (used_by s) 31 = true ->
  Z.testbit (used_by s) p = false ->
  (h <- ReaderLock_with in_header p ;; ReaderUnlock p h) c = Returns tt c.
Proof.
  intros Hp Hid Hs Hu Hw Hb.
  pose proof (slot_at_Some_bounds _ _ _ Hs) as Hbnd.
  assert (Hh : slot_at c (current_slot_id_ c - 1) <> None)
    by (rewrite Hs; discriminate).
  unfold bind.
  rewrite (ReaderLock_with_owned in_header p c s) by (try assumption; lia).
  rewrite Hb, andb_false_r.
  rewrite (ReaderUnlock_run p _ _ (with_used_by (fun u => Z.lor u (Z.shiftl 1 p)) s))
    by (try lia; rewrite slot_at_pin by exact Hh;
        rewrite Hs, Z.eqb_refl; reflexivity).
  simpl. rewrite testbit_set, Z.eqb_refl, orb_true_r by lia.
  f_equal. apply container_ext; [reflexivity |].
  intros j Hj. rewrite slot_at_unpin
    by (rewrite slot_at_pin by exact Hh; rewrite Hs; discriminate).
  rewrite slot_at_pin by exact Hh.
  destruct (Z.eqb_spec j (current_slot_id_ c - 1)) as [->|Hne].
  - rewrite Hs. simpl. unfold with_used_by. simpl.
    rewrite clear_after_set by (try assumption; lia).
    destruct s; reflexivity.
  - destruct (slot_at c j); reflexivity.
Qed.

Lemma slot_at_alter_all g c j :
  slot_at (alter_range g 0 (length (slots c)) c) j = g j <$> slot_at c j.
Proof.
  rewrite slot_at_alter_range by lia.
  destruct (Z.leb_spec 0 j), (Z.ltb_spec j (0 + Z.of_nat (length (slots c))));
    simpl; try reflexivity.
  - assert (Hn : slot_at c j = None) by (apply slot_at_None; lia).
    rewrite Hn. reflexivity.
  - assert (Hn : slot_at c j = None) by (apply slot_at_None; lia).
    rewrite Hn. reflexivity.
  - assert (Hn : slot_at c j = None) by (apply slot_at_None; lia).
    rewrite Hn. reflexivity.
Qed.

Lemma fmap_Some_inv {A B} (f : A -> B) (o : option A) (b : B) :
  f <$> o = Some b -> exists a, o = Some a /\ b = f a.
Proof.
  destruct o as [a|]; simpl; [| discriminate].
  intros H. injection H as <-. exists a. split; reflexivity.
Qed.

Lemma reset_reader_slot_bits p s i :
  Z.testbit (used_by (reset_reader_slot p s)) i = true ->
  Z.testbit (used_by s) i = true.
Proof.
  unfold reset_reader_slot. destruct (Z.testbit (used_by s) p); simpl.
  - apply testbit_land_true.
  - auto.
Qed.

Lemma reset_writer_slot_bits id j s i :
  Z.testbit (used_by (reset_writer_slot id j s)) i = true ->
  Z.testbit (used_by s) i = true.
Proof.
  unfold reset_writer_slot. destruct (_ && _); simpl.
  - apply testbit_land_true.
  - auto.
Qed.

Lemma publish_slot_bits id k msg j s i :
  Z.testbit (used_by (publish_slot id k msg j s)) i = true ->
  Z.testbit (used_by s) i = true \/ (i = 31 /\ j = k).
Proof.
  unfold publish_slot. intros H.
  assert (H1 : Z.testbit (used_by (if j =? k
             then with_used_by (fun u => Z.lor u used_by_writer)
                    (with_message msg s) else s)) i = true).
  { destruct (_ && _); simpl in H; [apply testbit_land_true in H |]; exact H. }
  destruct (Z.eqb_spec j k) as [->|_]; [| left; exact H1].
  simpl in H1. unfold used_by_writer in H1. rewrite testbit_set in H1 by lia.
  apply orb_true_iff in H1 as [H1 | H1]; [left; exact H1 | right].
  apply Z.eqb_eq in H1. split; [lia | reflexivity].
Qed.

Lemma touched_bits_in_use (N : nat) (c c' : SharedDataContainer) :
  well_formed N c -> bits_in_use N c -> touched N c c' -> bits_in_use N c'.
Proof.
  intros Hwf Hbits Ht.
  destruct Ht as [| p Hp Hid | p h Hp Hh | p Hp | k msg Hk |];
    intros j s' i Hs' Hi.
  - exact (Hbits j s' i Hs' Hi).
  - destruct (proj2 Hwf) as [H0 | (s & Hs & _)]; [contradiction |].
    rewrite slot_at_pin in Hs' by (rewrite Hs; discriminate).
    apply fmap_Some_inv in Hs' as (s0 & Hs0 & ->).
    destruct (j =? current_slot_id_ c - 1); [| exact (Hbits j s0 i Hs0 Hi)].
    simpl in Hi. rewrite testbit_set in Hi by lia.
    apply orb_true_iff in Hi as [Hi | Hi]; [exact (Hbits j s0 i Hs0 Hi) |].
    apply Z.eqb_eq in Hi. right. lia.
  - rewrite slot_at_unpin in Hs' by exact Hh.
    apply fmap_Some_inv in Hs' as (s0 & Hs0 & ->).
    destruct (j =? h); [| exact (Hbits j s0 i Hs0 Hi)].
    simpl in Hi. apply testbit_land_true in Hi. exact (Hbits j s0 i Hs0 Hi).
  - rewrite slot_at_alter_all in Hs'.
    apply fmap_Some_inv in Hs' as (s0 & Hs0 & ->).
    apply reset_reader_slot_bits in Hi. exact (Hbits j s0 i Hs0 Hi).
  - destruct Hk as [(sk & Hsk & _) _].
    pose proof (slot_at_Some_bounds _ _ _ Hsk).
    rewrite slot_at_published in Hs' by lia.
    apply fmap_Some_inv in Hs' as (s0 & Hs0 & ->).
    apply publish_slot_bits in Hi as [Hi | [-> _]];
      [exact (Hbits j s0 i Hs0 Hi) | left; reflexivity].
  - rewrite slot_at_alter_all in Hs'.
    apply fmap_Some_inv in Hs' as (s0 & Hs0 & ->).
    apply reset_writer_slot_bits in Hi. exact (Hbits j s0 i Hs0 Hi).
Qed.

Lemma touched_writer_mark (N : nat) (c c' : SharedDataContainer) :
  well_formed N c -> writer_mark_on_current_only c -> touched N c c' ->
  writer_mark_on_current_only c'.
Proof.
  intros Hwf Hmark Ht.
  destruct Ht as [| p Hp Hid | p h Hp Hh | p Hp | k msg Hk |];
    intros j s' Hs' Hw.
  - exact (Hmark j s' Hs' Hw).
  - rewrite current_pin.
    destruct (proj2 Hwf) as [H0 | (s & Hs & Hws)]; [contradiction |].
    rewrite slot_at_pin in Hs' by (rewrite Hs; discriminate).
    apply fmap_Some_inv in Hs' as (s0 & Hs0 & ->).
    destruct (Z.eqb_spec j (current_slot_id_ c - 1)); [assumption |].
    exact (Hmark j s0 Hs0 Hw).
  - rewrite current_unpin.
    rewrite slot_at_unpin in Hs' by exact Hh.
    apply fmap_Some_inv in Hs' as (s0 & Hs0 & ->).
    destruct (j =? h); [| exact (Hmark j s0 Hs0 Hw)].
    simpl in Hw. apply testbit_land_true in Hw. exact (Hmark j s0 Hs0 Hw).
  - rewrite current_alter_range. rewrite slot_at_alter_all in Hs'.
    apply fmap_Some_inv in Hs' as (s0 & Hs0 & ->).
    apply reset_reader_slot_bits in Hw. exact (Hmark j s0 Hs0 Hw).
  - rewrite current_published.
    destruct Hk as [(sk & Hsk & _) _].
    pose proof (slot_at_Some_bounds _ _ _ Hsk).
    rewrite slot_at_published in Hs' by lia.
    apply fmap_Some_inv in Hs' as (s0 & Hs0 & ->).
    destruct (Z.eq_dec j k) as [->|Hne]; [lia |]. exfalso.
    pose proof (slot_at_Some_bounds _ _ _ Hs0) as Hj.
    unfold publish_slot in Hw.
    destruct (Z.eqb_spec j k); [contradiction |].
    destruct (Z.gtb_spec (current_slot_id_ c) 0) as [Hpos|Hnpos];
      destruct (Z.eqb_spec j (current_slot_id_ c - 1)) as [Hcur|Hncur];
      simpl in Hw.
    + unfold used_by_writer in Hw. rewrite testbit_clear in Hw by lia.
      rewrite Z.eqb_refl, andb_false_r in Hw. discriminate.
    + exact (Hncur (Hmark j s0 Hs0 Hw)).
    + lia.
    + exact (Hncur (Hmark j s0 Hs0 Hw)).
  - rewrite current_alter_range. rewrite slot_at_alter_all in Hs'.
    apply fmap_Some_inv in Hs' as (s0 & Hs0 & ->).
    apply reset_writer_slot_bits in Hw. exact (Hmark j s0 Hs0 Hw).
Qed.

Lemma slot_at_zero_container (N : nat) (j : Z) (s : Slot) :
  slot_at (zero_container N) j = Some s -> s = zero_slot.
Proof.
  intros Hs. pose proof (slot_at_Some_bounds _ _ _ Hs) as Hj.
  rewrite slot_at_lookup in Hs by lia.
  unfold zero_container in Hs. cbn [slots] in Hs.
  apply lookup_replicate in Hs as [-> _]. reflexivity.
Qed.

Lemma bits_in_use_zero (N : nat) : bits_in_use N (zero_container N).
Proof.
  intros j s i Hs Hi. exfalso.
  apply slot_at_zero_container in Hs as ->.
  simpl in Hi. rewrite Z.bits_0 in Hi. discriminate.
Qed.

Lemma writer_mark_zero (N : nat) : writer_mark_on_current_only (zero_container N).
Proof.
  intros j s Hs Hw. exfalso.
  apply slot_at_zero_container in Hs as ->.
  simpl in Hw. rewrite Z.bits_0 in Hw. discriminate.
Qed.

Lemma reachable_bits_in_use (N : nat) (c : SharedDataContainer) :
  (N <= 31)%nat -> reachable N c -> bits_in_use N c.
Proof.
  intros HN Hreach. induction Hreach as [| c c' k Hreach IH Hk Hleaves].
  - apply bits_in_use_zero.
  - pose proof (reachable_well_formed N c HN Hreach) as Hwf.
    apply (touched_bits_in_use N c c' Hwf IH).
    exact (leaves_touched N k c c' HN Hwf Hk Hleaves).
Qed.

Lemma reachable_writer_mark (N : nat) (c : SharedDataContainer) :
  (N <= 31)%nat -> reachable N c -> writer_mark_on_current_only c.
Proof.
  intros HN Hreach. induction Hreach as [| c c' k Hreach IH Hk Hleaves].
  - apply writer_mark_zero.
  - pose proof (reachable_well_formed N c HN Hreach) as Hwf.
    apply (touched_writer_mark N c c' Hwf IH).
    exact (leaves_touched N k c c' HN Hwf Hk Hleaves).
Qed.

(** X6: in every container that a sequence of calls makes of the zero-filled
    region, each state word is a 32-bit word in which only the reader bits
    [0 .. N - 1] and the writer bit 31 can be set. *)
Theorem reachable_words_use_only_reader_and_writer_bits
    (N : nat) (c : SharedDataContainer) :
  (N <= 31)%nat ->
  reachable N c ->
  forall j s, slot_at c j = Some s ->
    0 <= used_by s < 2 ^ 32 /\
    forall i, Z.testbit (used_by s) i = true -> i = 31 \/ 0 <= i < Z.of_nat N.
Proof.
  intros HN Hreach.
  pose proof (reachable_bits_in_use N c HN Hreach) as Hbits.
  intros j s Hs. split; [| intros i Hi; exact (Hbits j s i Hs Hi)].
  apply word32_of_bits. intros i Hi.
  destruct (Z.testbit (used_by s) i) eqn:Hb; [| reflexivity].
  destruct (Hbits j s i Hs Hb); lia.
Qed.

(** X7: in every reachable container only the current slot carries the
    writer mark, and [WriterReset] (the attach of a restarted producer)
    leaves such a container exactly as it is. *)
Theorem reachable_writer_mark_on_current_only
    (N : nat) (c : SharedDataContainer) :
  (N <= 31)%nat ->
  reachable N c ->
  (forall j s, slot_at c j = Some s -> Z.testbit (used_by s) 31 = true ->
     j = current_slot_id_ c - 1) /\
  WriterReset c = Returns tt c.
Proof.
  intros HN Hreach.
  pose proof (reachable_writer_mark N c HN Hreach) as Hmark.
  split; [exact Hmark |].
  rewrite WriterReset_run. f_equal.
  apply container_ext; [apply current_alter_range |].
  intros j _. rewrite slot_at_alter_all.
  destruct (slot_at c j) as [s|] eqn:Hs; [| reflexivity].
  simpl. f_equal. unfold reset_writer_slot.
  destruct (Z.eqb_spec j (current_slot_id_ c - 1)) as [Heq|Hne]; [reflexivity |].
  destruct (Z.testbit (used_by s) 31) eqn:Hw; [| reflexivity].
  exfalso. exact (Hne (Hmark j s Hs Hw)).
Qed.

(** X8: a reachable container that holds a message keeps holding one: if
    [IsEmpty] returns false, or the call is a [WriterUpdateMessage] that
    returns, then [IsEmpty] returns false after the call, whichever call it
    is. *)
Theorem container_never_empties
    (N : nat) (k : call) (c c' : SharedDataContainer) :
  (N <= 31)%nat ->
  reachable N c ->
  process_index_ok N k ->
  leaves (perform k c) c' ->
  (IsEmpty c = Returns false c \/
   exists msg, k = CallWriterUpdateMessage msg /\ perform k c = Returns tt c') ->
  IsEmpty c' = Returns false c'.
Proof.
  intros HN Hreach Hk Hleaves Hfull.
  pose proof (reachable_well_formed N c HN Hreach) as Hwf.
  assert (Hid' : current_slot_id_ c' <> 0).
  { destruct Hfull as [Hne | (msg & -> & Hret)].
    - rewrite IsEmpty_run in Hne. injection Hne as Hne.
      apply Z.eqb_neq in Hne.
      destruct (leaves_touched N k c c' HN Hwf Hk Hleaves)
        as [| p Hp Hid | p h Hp Hh | p Hp | n msg Hn |].
      + exact Hne.
      + rewrite current_pin. exact Hne.
      + rewrite current_unpin. exact Hne.
      + rewrite current_alter_range. exact Hne.
      + rewrite current_published.
        destruct Hn as [(s & Hs & _) _].
        apply slot_at_Some_bounds in Hs. lia.
      + rewrite current_alter_range. exact Hne.
    - simpl in Hret. apply WriterUpdateMessage_returns in Hret
        as (n & [(s & Hs & _) _] & -> & _).
      rewrite current_published. apply slot_at_Some_bounds in Hs. lia. }
  rewrite IsEmpty_run. apply Z.eqb_neq in Hid'. rewrite Hid'. reflexivity.
Qed.

(** On a container whose current slot carries the writer mark, the first
    free slot is not the current slot. *)
Lemma first_free_not_current (c : SharedDataContainer) (k : Z) :
  current_slot_owned c -> first_free_slot c k ->
  (current_slot_id_ c >? 0) && (k =? current_slot_id_ c - 1) = false.
Proof.
  intros Hown [(s0 & Hs0 & H0) _].
  destruct Hown as [Hz | (s & Hs & Hw)].
  - rewrite Hz. reflexivity.
  - destruct (Z.eqb_spec k (current_slot_id_ c - 1)) as [Heq|Hne];
      [| apply andb_false_r].
    exfalso. rewrite <- Heq, Hs0 in Hs. injection Hs as <-.
    rewrite H0, Z.bits_0 in Hw. discriminate.
Qed.

Lemma current_slot_owned_bounds (c : SharedDataContainer) :
  current_slot_owned c ->
  0 <= current_slot_id_ c <= Z.of_nat (length (slots c)).
Proof.
  intros [Hz | (s & Hs & _)]; [lia |].
  apply slot_at_Some_bounds in Hs. lia.
Qed.

(** X9: on a container with a free slot whose current slot, if any, carries
    the writer mark, a [WriterUpdateMessage(msg)] followed by a
    [ReaderLock(p)] (either copy) and a [ReaderGetMessage] of the returned
    handle returns [msg]; the handle is the slot the writer took, the first
    free one. *)
Theorem write_then_lock_reads_the_message
    (in_header : bool) (p : Z) (msg : Message) (c : SharedDataContainer) :
  0 <= p < 31 ->
  current_slot_owned c ->
  Exists (fun s => used_by s = 0) (slots c) ->
  exists h c',
    first_free_slot c h /\
    (WriterUpdateMessage msg ;;;
     h <- ReaderLock_with in_header p ;;
     m <- ReaderGetMessage h ;;
     ret (h, m)) c = Returns (h, msg) c'.
Proof.
  intros Hp Hown Hex.
  pose proof (current_slot_owned_bounds c Hown) as Hidb.
  destruct (WriterUpdateMessage_returns_when_free msg c Hex) as (k & Hk & Hrun);
    [lia |].
  pose proof (first_free_not_current c k Hown Hk) as Hnc.
  destruct Hk as [(s0 & Hs0 & H0) Hbefore].
  pose proof (slot_at_Some_bounds _ _ _ Hs0) as Hkb.
  remember (published k msg c) as c1 eqn:Hc1.
  remember (mkSlot (Z.lor 0 used_by_writer) msg) as s1 eqn:Hs1eq.
  assert (Hcur1 : current_slot_id_ c1 - 1 = k)
    by (rewrite Hc1, current_published; lia).
  assert (Hs1 : slot_at c1 k = Some s1).
  { rewrite Hc1, slot_at_published by lia. rewrite Hs0. simpl. f_equal.
    unfold publish_slot. rewrite Z.eqb_refl, Hnc. rewrite Hs1eq.
    unfold with_used_by, with_message. simpl. rewrite H0. reflexivity. }
  assert (Hw1 : Z.testbit (used_by s1) 31 = true).
  { rewrite Hs1eq. unfold used_by_writer. simpl. rewrite testbit_set by lia.
    apply orb_true_r. }
  assert (Hbit : Z.testbit (used_by s1) p = false).
  { rewrite Hs1eq. unfold used_by_writer. simpl. rewrite testbit_set by lia.
    rewrite Z.bits_0. destruct (Z.eqb_spec 31 p); [lia | reflexivity]. }
  exists k, (pin p k c1).
  split; [split; [exists s0; auto | exact Hbefore] |].
  unfold bind at 1. rewrite Hrun.
  unfold bind at 1.
  rewrite (ReaderLock_with_owned in_header p c1 s1);
    [| lia | lia | rewrite Hcur1; exact Hs1 | exact Hw1].
  rewrite Hbit, andb_false_r, Hcur1.
  unfold bind.
  rewrite (ReaderGetMessage_run k (pin p k c1)
             (with_used_by (fun u => Z.lor u (Z.shiftl 1 p)) s1)).
  - rewrite Hs1eq. reflexivity.
  - rewrite slot_at_pin by (rewrite Hs1; discriminate).
    rewrite Hs1, Z.eqb_refl. reflexivity.
Qed.

(** ** Restart of a killed writer *)

Lemma WriterUpdateMessage_killed_full at_point msg c :
  no_free_slot c ->
  WriterUpdateMessage_killed at_point msg c = Throws NO_FREE_SLOT c.
Proof.
  intros Hfull. unfold WriterUpdateMessage_killed.
  unfold bind at 1 2, size_slots.
  destruct (find_free_slot_cases c) as [(k & Hk & _) | [_ ->]]; [| reflexivity].
  exfalso. exact (first_free_slot_not_full _ _ Hk Hfull).
Qed.

(** The container a kill inside [WriterUpdateMessage], which had taken slot
    [k], leaves behind. *)
Lemma WriterUpdateMessage_killed_free at_point msg c k :
  first_free_slot c k ->
  WriterUpdateMessage_killed at_point msg c =
    Returns tt
      match at_point with
      | KilledAfterMessage => alter_slot (with_message msg) k c
      | KilledAfterMark =>
          alter_slot (with_used_by (fun u => Z.lor u used_by_writer)) k
            (alter_slot (with_message msg) k c)
      | KilledAfterCurrent =>
          mkContainer (k + 1)
            (slots (alter_slot (with_used_by (fun u => Z.lor u used_by_writer)) k
                      (alter_slot (with_message msg) k c)))
      end.
Proof.
  intros Hk. unfold WriterUpdateMessage_killed.
  unfold bind at 1 2, size_slots.
  destruct (find_free_slot_cases c) as [(k' & Hk' & ->) | [Hfull _]].
  2: { exfalso. exact (first_free_slot_not_full _ _ Hk Hfull). }
  rewrite (first_free_slot_unique _ _ _ Hk' Hk). clear k' Hk'.
  destruct Hk as [(s & Hs & H0) _].
  run_step. rewrite Hs.
  destruct at_point; simpl; try reflexivity;
    rewrite slot_at_alter_eq, Hs; reflexivity.
Qed.

Lemma slot_at_marked (k : Z) (msg : Message) (c : SharedDataContainer) (j : Z) :
  0 <= k ->
  slot_at (alter_slot (with_used_by (fun u => Z.lor u used_by_writer)) k
             (alter_slot (with_message msg) k c)) j
  = (fun s => if j =? k
              then with_used_by (fun u => Z.lor u used_by_writer)
                     (with_message msg s)
              else s) <$> slot_at c j.
Proof.
  intros Hk. destruct (Z.eqb_spec j k) as [->|Hne].
  - rewrite !slot_at_alter_eq. destruct (slot_at c k); reflexivity.
  - rewrite !slot_at_alter_ne by (try assumption; congruence).
    destruct (slot_at c j); reflexivity.
Qed.

Lemma slot_at_with_message (k : Z) (msg : Message) (c : SharedDataContainer)
    (j : Z) :
  0 <= k ->
  slot_at (alter_slot (with_message msg) k c) j
  = (fun s => if j =? k then with_message msg s else s) <$> slot_at c j.
Proof.
  intros Hk. destruct (Z.eqb_spec j k) as [->|Hne].
  - rewrite slot_at_alter_eq. reflexivity.
  - rewrite slot_at_alter_ne by (try assumption; congruence).
    destruct (slot_at c j); reflexivity.
Qed.

(** X10: a writer killed right after the store to [current_slot_id_], and
    restarted ([Producer] attach, which runs [WriterReset]), leaves the
    container that the complete [WriterUpdateMessage] would have left, on
    every container in which the current slot (if any), and only it, carries
    the writer mark. *)
Theorem killed_after_publish_point_recovers
    (msg : Message) (c : SharedDataContainer) :
  current_slot_owned c ->
  writer_mark_on_current_only c ->
  (WriterUpdateMessage_killed KilledAfterCurrent msg ;;; Producer_attach) c
  = WriterUpdateMessage msg c.
Proof.
  intros Hown Hmark.
  pose proof (current_slot_owned_bounds c Hown) as Hidb.
  destruct (find_free_slot_cases c) as [(k & Hk & _) | [Hfull _]].
  2: { unfold bind. rewrite WriterUpdateMessage_killed_full by exact Hfull.
       rewrite WriterUpdateMessage_full by exact Hfull. reflexivity. }
  pose proof (first_free_not_current c k Hown Hk) as Hnc.
  unfold bind.
  rewrite (WriterUpdateMessage_killed_free KilledAfterCurrent msg c k Hk).
  rewrite (WriterUpdateMessage_free msg c k Hk).
  destruct Hk as [(s0 & Hs0 & H0) _].
  pose proof (slot_at_Some_bounds _ _ _ Hs0) as Hkb.
  replace ((current_slot_id_ c >? 0) &&
           negb (current_slot_id_ c - 1 <? Z.of_nat (length (slots c))))
    with false
    by (destruct (Z.gtb_spec (current_slot_id_ c) 0);
        destruct (Z.ltb_spec (current_slot_id_ c - 1)
                    (Z.of_nat (length (slots c)))); simpl; try reflexivity; lia).
  unfold Producer_attach. rewrite WriterReset_run. f_equal.
  apply container_ext.
  { rewrite current_alter_range, current_published. reflexivity. }
  intros j Hj. rewrite slot_at_alter_all, slot_at_published by lia.
  cbn [current_slot_id_].
  rewrite slot_at_mkContainer, slot_at_marked by lia.
  destruct (slot_at c j) as [s|] eqn:Hs; [| reflexivity].
  simpl. f_equal. unfold reset_writer_slot, publish_slot.
  replace (k + 1 - 1) with k by lia.
  destruct (Z.eqb_spec j k) as [->|Hne]; simpl.
  - rewrite Hnc. reflexivity.
  - destruct (Z.testbit (used_by s) 31) eqn:Hw.
    + pose proof (Hmark j s Hs Hw) as Hcur.
      destruct (Z.gtb_spec (current_slot_id_ c) 0); [| lia].
      destruct (Z.eqb_spec j (current_slot_id_ c - 1)); [| contradiction].
      reflexivity.
    + destruct (Z.gtb_spec (current_slot_id_ c) 0) as [Hpos|]; [| reflexivity].
      destruct (Z.eqb_spec j (current_slot_id_ c - 1)) as [Hcur|];
        [| reflexivity].
      exfalso. destruct Hown as [Hz | (sc & Hsc & Hwc)]; [lia |].
      rewrite <- Hcur, Hs in Hsc. injection Hsc as <-.
      rewrite Hw in Hwc. discriminate.
Qed.

(** X11: a writer killed before the store to [current_slot_id_] (after the
    store of the message, or after marking the slot), and restarted, leaves
    [current_slot_id_] and every state word as they were before the call:
    only the message of the free slot it had taken is overwritten. *)
Theorem killed_before_publish_point_recovers
    (at_point : kill_point) (msg : Message) (c : SharedDataContainer) (k : Z) :
  at_point <> KilledAfterCurrent ->
  current_slot_owned c ->
  writer_mark_on_current_only c ->
  first_free_slot c k ->
  exists c',
    (WriterUpdateMessage_killed at_point msg ;;; Producer_attach) c
      = Returns tt c' /\
    current_slot_id_ c' = current_slot_id_ c /\
    forall j s, slot_at c j = Some s ->
      slot_at c' j = Some (if j =? k then with_message msg s else s).
Proof.
  intros Hat Hown Hmark Hk.
  pose proof (first_free_not_current c k Hown Hk) as Hnc.
  pose proof (WriterUpdateMessage_killed_free at_point msg c k Hk) as Hkilled.
  destruct Hk as [(s0 & Hs0 & H0) _].
  pose proof (slot_at_Some_bounds _ _ _ Hs0) as Hkb.
  assert (Hkc : k <> current_slot_id_ c - 1).
  { intros Heq. rewrite <- Heq, Z.eqb_refl in Hnc.
    destruct (Z.gtb_spec (current_slot_id_ c) 0); [discriminate | lia]. }
  assert (Hother : forall j s, slot_at c j = Some s -> j <> k ->
            reset_writer_slot (current_slot_id_ c) j s = s).
  { intros j s Hs Hne. unfold reset_writer_slot.
    destruct (Z.eqb_spec j (current_slot_id_ c - 1)); [reflexivity |].
    destruct (Z.testbit (used_by s) 31) eqn:Hw; [| reflexivity].
    exfalso. eauto. }
  destruct at_point; [| | contradiction].
  - exists (alter_range (reset_writer_slot (current_slot_id_ c)) 0
              (length (slots (alter_slot (with_message msg) k c)))
              (alter_slot (with_message msg) k c)).
    split.
    { unfold bind. rewrite Hkilled. unfold Producer_attach.
      rewrite WriterReset_run. reflexivity. }
    split; [rewrite current_alter_range; reflexivity |].
    intros j s Hs. rewrite slot_at_alter_all.
    rewrite slot_at_with_message by lia. rewrite Hs. simpl. f_equal.
    destruct (Z.eqb_spec j k) as [->|Hne].
    + rewrite Hs0 in Hs. injection Hs as <-.
      unfold reset_writer_slot. simpl. rewrite H0, Z.bits_0, andb_false_r.
      reflexivity.
    + apply Hother; assumption.
  - set (marked := alter_slot (with_used_by (fun u => Z.lor u used_by_writer)) k
                     (alter_slot (with_message msg) k c)) in *.
    exists (alter_range (reset_writer_slot (current_slot_id_ c)) 0
              (length (slots marked)) marked).
    split.
    { unfold bind. rewrite Hkilled. unfold Producer_attach.
      rewrite WriterReset_run. reflexivity. }
    split; [rewrite current_alter_range; reflexivity |].
    intros j s Hs. rewrite slot_at_alter_all.
    unfold marked. rewrite slot_at_marked by lia. rewrite Hs. simpl. f_equal.
    destruct (Z.eqb_spec j k) as [->|Hne].
    + rewrite Hs0 in Hs. injection Hs as <-.
      unfold reset_writer_slot.
      destruct (Z.eqb_spec k (current_slot_id_ c - 1)); [contradiction |].
      unfold with_used_by, with_message. simpl. rewrite H0.
      reflexivity.
    + apply Hother; assumption.
Qed.

(** ** The adapters *)

Lemma HasMessage_run (k : Consumer) (c : SharedDataContainer) :
  HasMessage k c = Returns (negb (current_slot_id_ c =? 0)) c.
Proof. reflexivity. Qed.

Lemma Consumer_attach_run (q P : Z) (c : SharedDataContainer) :
  0 <= q < 32 ->
  Consumer_attach q P c =
    Returns (mkConsumer P (-1) q)
      (alter_range (fun _ => reset_reader_slot q) 0 (length (slots c)) c).
Proof.
  intros Hq. unfold Consumer_attach, bind.
  rewrite ReaderReset_run by exact Hq. reflexivity.
Qed.

Lemma LockMessage_holding (in_header : bool) (k : Consumer)
    (c : SharedDataContainer) :
  locked_message_handle_ k <> -1 ->
  LockMessage in_header k c = Throws CONSUMER_DOUBLE_LOCK c.
Proof.
  intros Hh. unfold LockMessage.
  destruct (Z.eqb_spec (locked_message_handle_ k) (-1)); [contradiction |].
  reflexivity.
Qed.

Lemma LockMessage_empty (in_header : bool) (k : Consumer)
    (c : SharedDataContainer) :
  locked_message_handle_ k = -1 -> current_slot_id_ c = 0 ->
  LockMessage in_header k c = Throws CONSUMER_EMPTY c.
Proof.
  intros Hh H0. unfold LockMessage. rewrite Hh. simpl.
  unfold bind. rewrite HasMessage_run, H0. reflexivity.
Qed.

Lemma LockMessage_owned (in_header : bool) (k : Consumer)
    (c : SharedDataContainer) (s : Slot) :
  locked_message_handle_ k = -1 ->
  0 <= process_index_ k < 32 ->
  current_slot_id_ c <> 0 ->
  slot_at c (current_slot_id_ c - 1) = Some s ->
  Z.testbit (used_by s) 31 = true ->
  LockMessage in_header k c =
    if in_header && Z.testbit (used_by s) (process_index_ k)
    then Throws DOUBLE_LOCK c
    else Returns (message s,
                  mkConsumer (producer_process_index k)
                    (current_slot_id_ c - 1) (process_index_ k))
           (pin (process_index_ k) (current_slot_id_ c - 1) c).
Proof.
  intros Hh Hq Hid Hs Hw. unfold LockMessage. rewrite Hh. simpl.
  unfold bind at 1. rewrite HasMessage_run.
  destruct (Z.eqb_spec (current_slot_id_ c) 0); [contradiction |]. simpl.
  unfold bind at 1.
  rewrite (ReaderLock_with_owned in_header _ c s) by assumption.
  destruct (in_header && Z.testbit (used_by s) (process_index_ k));
    [reflexivity |].
  unfold bind. cbn [locked_message_handle_].
  rewrite (ReaderGetMessage_run _ _
             (with_used_by (fun u => Z.lor u (Z.shiftl 1 (process_index_ k))) s)).
  - reflexivity.
  - rewrite slot_at_pin by (rewrite Hs; discriminate).
    rewrite Hs, Z.eqb_refl. reflexivity.
Qed.

Lemma UnlockMessage_not_holding (k : Consumer) (c : SharedDataContainer) :
  locked_message_handle_ k = -1 ->
  UnlockMessage k c = Throws CONSUMER_NOT_LOCKED c.
Proof. intros Hh. unfold UnlockMessage. rewrite Hh. reflexivity. Qed.

Lemma UnlockMessage_holding (k : Consumer) (c : SharedDataContainer) (s : Slot) :
  locked_message_handle_ k <> -1 ->
  0 <= process_index_ k < 32 ->
  slot_at c (locked_message_handle_ k) = Some s ->
  UnlockMessage k c =
    if Z.testbit (used_by s) (process_index_ k)
    then Returns (mkConsumer (producer_process_index k) (-1) (process_index_ k))
           (unpin (process_index_ k) (locked_message_handle_ k) c)
    else Throws NOT_LOCKED c.
Proof.
  intros Hh Hq Hs. unfold UnlockMessage.
  destruct (Z.eqb_spec (locked_message_handle_ k) (-1)); [contradiction |].
  unfold bind. rewrite (ReaderUnlock_run _ _ c s) by assumption.
  destruct (Z.testbit (used_by s) (process_index_ k)); reflexivity.
Qed.

Lemma UnlockMessage_out_of_bounds (k : Consumer) (c : SharedDataContainer) :
  locked_message_handle_ k <> -1 ->
  slot_at c (locked_message_handle_ k) = None ->
  UnlockMessage k c = Undefined.
Proof.
  intros Hh Hs. unfold UnlockMessage.
  destruct (Z.eqb_spec (locked_message_handle_ k) (-1)); [contradiction |].
  unfold bind. rewrite ReaderUnlock_undefined by exact Hs. reflexivity.
Qed.

Lemma touched_well_formed (N : nat) (c c' : SharedDataContainer) :
  (N <= 31)%nat -> well_formed N c -> touched N c c' -> well_formed N c'.
Proof.
  intros HN Hwf Ht.
  destruct Ht as [| p Hp Hid | p h Hp Hh | p Hp | k msg Hk |].
  - exact Hwf.
  - apply well_formed_pin; try assumption; lia.
  - apply well_formed_unpin; try assumption; lia.
  - apply well_formed_reader_reset; [lia | exact Hwf].
  - apply well_formed_published; assumption.
  - apply well_formed_writer_reset. exact Hwf.
Qed.

Lemma testbit_reset_reader_own p s :
  0 <= p < 32 -> Z.testbit (used_by (reset_reader_slot p s)) p = false.
Proof.
  intros Hp. unfold reset_reader_slot.
  destruct (Z.testbit (used_by s) p) eqn:Hb; simpl; [| exact Hb].
  rewrite testbit_clear, Z.eqb_refl by lia. apply andb_false_r.
Qed.

Lemma testbit_unpin_other u p i :
  0 <= p < 32 ->
  Z.testbit (Z.land u (not32 (Z.shiftl 1 p))) i = true -> i <> p.
Proof.
  intros Hp Hb ->. rewrite testbit_clear, Z.eqb_refl, andb_false_r in Hb by lia.
  discriminate.
Qed.

(** ** Consistency of a region under the adapter calls *)

Lemma testbit_reset_reader_other p s i :
  0 <= p -> 0 <= i < 32 -> i <> p ->
  Z.testbit (used_by (reset_reader_slot p s)) i = Z.testbit (used_by s) i.
Proof.
  intros Hp Hi Hne. unfold reset_reader_slot.
  destruct (Z.testbit (used_by s) p); simpl; [| reflexivity].
  rewrite testbit_clear by lia.
  destruct (Z.eqb_spec p i); [congruence | apply andb_true_r].
Qed.

Lemma testbit_reset_writer_other id j s i :
  0 <= i < 31 ->
  Z.testbit (used_by (reset_writer_slot id j s)) i = Z.testbit (used_by s) i.
Proof.
  intros Hi. unfold reset_writer_slot. destruct (_ && _); simpl; [| reflexivity].
  unfold used_by_writer. rewrite testbit_clear by lia.
  destruct (Z.eqb_spec 31 i); [lia | apply andb_true_r].
Qed.

Lemma set_consumer_eq q k f : set_consumer q k f q = k.
Proof. unfold set_consumer. rewrite Z.eqb_refl. reflexivity. Qed.

Lemma set_consumer_ne q k f i : i <> q -> set_consumer q k f i = f i.
Proof.
  intros Hne. unfold set_consumer.
  destruct (Z.eqb_spec i q); [contradiction | reflexivity].
Qed.

Lemma set_consumer_index q pp h f :
  (forall i, process_index_ (f i) = i) ->
  forall i, process_index_ (set_consumer q (mkConsumer pp h q) f i) = i.
Proof.
  intros Hidx i. unfold set_consumer.
  destruct (Z.eqb_spec i q) as [->|_]; [reflexivity | apply Hidx].
Qed.

Lemma consistent_pin (N : nat) (P q pp : Z) (c : SharedDataContainer)
    (f : Z -> Consumer) :
  (N <= 31)%nat ->
  region_consistent N P (mkRegion c f) ->
  is_peer N P q ->
  locked_message_handle_ (f q) = -1 ->
  current_slot_id_ c <> 0 ->
  region_consistent N P
    (mkRegion (pin q (current_slot_id_ c - 1) c)
       (set_consumer q (mkConsumer pp (current_slot_id_ c - 1) q) f)).
Proof.
  intros HN (Hwf & Hmark & Hidx & Hbits & Hheld) Hq Hfree Hid.
  unfold region_consistent. cbn [shared consumer_of] in *.
  assert (Ht : touched N c (pin q (current_slot_id_ c - 1) c))
    by (apply touched_pin; [apply Hq | exact Hid]).
  destruct (proj2 Hwf) as [H0 | (sc & Hsc & Hwc)]; [contradiction |].
  assert (Hh : slot_at c (current_slot_id_ c - 1) <> None)
    by (rewrite Hsc; discriminate).
  split; [exact (touched_well_formed N _ _ HN Hwf Ht) |].
  split; [exact (touched_writer_mark N _ _ Hwf Hmark Ht) |].
  split; [apply set_consumer_index; exact Hidx |].
  split.
  - intros j s' i Hs' Hi Hb.
    rewrite slot_at_pin in Hs' by exact Hh.
    apply fmap_Some_inv in Hs' as (s0 & Hs0 & ->).
    pose proof (slot_at_Some_bounds _ _ _ Hs0) as Hj.
    destruct (Z.eq_dec i q) as [->|Hiq].
    + split; [exact Hq |]. rewrite set_consumer_eq. simpl.
      destruct (Z.eqb_spec j (current_slot_id_ c - 1)) as [->|Hne];
        [reflexivity |].
      destruct (Hbits j s0 q Hs0 Hi Hb) as [_ Hhandle]. lia.
    + rewrite set_consumer_ne by exact Hiq.
      apply (Hbits j s0 i Hs0 Hi).
      destruct (j =? current_slot_id_ c - 1); [| exact Hb].
      simpl in Hb. rewrite testbit_set in Hb by (destruct Hq; lia).
      apply orb_true_iff in Hb as [Hb | Hb]; [exact Hb |].
      apply Z.eqb_eq in Hb. congruence.
  - intros i Hi. destruct (Z.eq_dec i q) as [->|Hiq].
    + split; [exact Hq |]. rewrite set_consumer_eq. simpl.
      eexists. split.
      * rewrite slot_at_pin by exact Hh. rewrite Hsc, Z.eqb_refl. reflexivity.
      * simpl. rewrite testbit_set, Z.eqb_refl by (destruct Hq; lia).
        apply orb_true_r.
    + rewrite set_consumer_ne in * by exact Hiq.
      destruct (Hheld i Hi) as (Hpeer & s & Hs & Hb).
      split; [exact Hpeer |]. eexists. split.
      * rewrite slot_at_pin by exact Hh. rewrite Hs. reflexivity.
      * destruct (_ =? _); [| exact Hb].
        simpl. rewrite testbit_set, Hb by (destruct Hq; lia). reflexivity.
Qed.

Lemma consistent_unpin (N : nat) (P q pp : Z) (c : SharedDataContainer)
    (f : Z -> Consumer) :
  (N <= 31)%nat ->
  region_consistent N P (mkRegion c f) ->
  is_peer N P q ->
  locked_message_handle_ (f q) <> -1 ->
  region_consistent N P
    (mkRegion (unpin q (locked_message_handle_ (f q)) c)
       (set_consumer q (mkConsumer pp (-1) q) f)).
Proof.
  intros HN (Hwf & Hmark & Hidx & Hbits & Hheld) Hq Hholds.
  unfold region_consistent. cbn [shared consumer_of] in *.
  destruct (Hheld q Hholds) as (_ & sh & Hsh & Hbh).
  set (h := locked_message_handle_ (f q)) in *.
  assert (Hh : slot_at c h <> None) by (rewrite Hsh; discriminate).
  assert (Ht : touched N c (unpin q h c))
    by (apply touched_unpin; [apply Hq | exact Hh]).
  assert (Hq32 : 0 <= q < 32) by (destruct Hq; lia).
  split; [exact (touched_well_formed N _ _ HN Hwf Ht) |].
  split; [exact (touched_writer_mark N _ _ Hwf Hmark Ht) |].
  split; [apply set_consumer_index; exact Hidx |].
  split.
  - intros j s' i Hs' Hi Hb.
    rewrite slot_at_unpin in Hs' by exact Hh.
    apply fmap_Some_inv in Hs' as (s0 & Hs0 & ->).
    assert (Hold : Z.testbit (used_by s0) i = true /\ i <> q).
    { destruct (Z.eqb_spec j h) as [->|Hne].
      - simpl in Hb. split; [exact (testbit_land_true _ _ _ Hb) |].
        exact (testbit_unpin_other _ _ _ Hq32 Hb).
      - split; [exact Hb |]. intros ->.
        destruct (Hbits j s0 q Hs0 Hi Hb) as [_ Hhandle].
        exact (Hne (eq_sym Hhandle)). }
    destruct Hold as [Hb0 Hiq].
    rewrite set_consumer_ne by exact Hiq. exact (Hbits j s0 i Hs0 Hi Hb0).
  - intros i Hi. destruct (Z.eq_dec i q) as [->|Hiq].
    + rewrite set_consumer_eq in Hi. simpl in Hi. contradiction.
    + rewrite set_consumer_ne in * by exact Hiq.
      destruct (Hheld i Hi) as (Hpeer & s & Hs & Hb).
      split; [exact Hpeer |]. eexists. split.
      * rewrite slot_at_unpin by exact Hh. rewrite Hs. reflexivity.
      * destruct (_ =? _); [| exact Hb].
        simpl. rewrite testbit_clear by (destruct Hpeer; lia).
        rewrite Hb. destruct (Z.eqb_spec q i); [congruence | reflexivity].
Qed.

Lemma consistent_reader_reset (N : nat) (P q pp : Z) (c : SharedDataContainer)
    (f : Z -> Consumer) :
  (N <= 31)%nat ->
  region_consistent N P (mkRegion c f) ->
  is_peer N P q ->
  region_consistent N P
    (mkRegion (alter_range (fun _ => reset_reader_slot q) 0 (length (slots c)) c)
       (set_consumer q (mkConsumer pp (-1) q) f)).
Proof.
  intros HN (Hwf & Hmark & Hidx & Hbits & Hheld) Hq.
  unfold region_consistent. cbn [shared consumer_of] in *.
  assert (Ht : touched N c
                 (alter_range (fun _ => reset_reader_slot q) 0 (length (slots c)) c))
    by (apply touched_reader_reset; apply Hq).
  assert (Hq32 : 0 <= q < 32) by (destruct Hq; lia).
  split; [exact (touched_well_formed N _ _ HN Hwf Ht) |].
  split; [exact (touched_writer_mark N _ _ Hwf Hmark Ht) |].
  split; [apply set_consumer_index; exact Hidx |].
  split.
  - intros j s' i Hs' Hi Hb.
    rewrite slot_at_alter_all in Hs'.
    apply fmap_Some_inv in Hs' as (s0 & Hs0 & ->).
    assert (Hiq : i <> q).
    { intros ->. rewrite testbit_reset_reader_own in Hb by exact Hq32.
      discriminate. }
    rewrite set_consumer_ne by exact Hiq.
    exact (Hbits j s0 i Hs0 Hi (reset_reader_slot_bits _ _ _ Hb)).
  - intros i Hi. destruct (Z.eq_dec i q) as [->|Hiq].
    + rewrite set_consumer_eq in Hi. simpl in Hi. contradiction.
    + rewrite set_consumer_ne in * by exact Hiq.
      destruct (Hheld i Hi) as (Hpeer & s & Hs & Hb).
      split; [exact Hpeer |]. eexists. split.
      * rewrite slot_at_alter_all, Hs. reflexivity.
      * rewrite testbit_reset_reader_other by (destruct Hpeer; lia). exact Hb.
Qed.

Lemma consistent_published (N : nat) (P k : Z) (msg : Message)
    (c : SharedDataContainer) (f : Z -> Consumer) :
  (N <= 31)%nat ->
  region_consistent N P (mkRegion c f) ->
  first_free_slot c k ->
  region_consistent N P (mkRegion (published k msg c) f).
Proof.
  intros HN (Hwf & Hmark & Hidx & Hbits & Hheld) Hk.
  unfold region_consistent. cbn [shared consumer_of] in *.
  assert (Ht : touched N c (published k msg c))
    by (apply touched_published; exact Hk).
  destruct Hk as [(s0 & Hs0 & H0) _].
  pose proof (slot_at_Some_bounds _ _ _ Hs0) as Hkb.
  split; [exact (touched_well_formed N _ _ HN Hwf Ht) |].
  split; [exact (touched_writer_mark N _ _ Hwf Hmark Ht) |].
  split; [exact Hidx |].
  split.
  - intros j s' i Hs' Hi Hb.
    rewrite slot_at_published in Hs' by lia.
    apply fmap_Some_inv in Hs' as (s1 & Hs1 & ->).
    apply publish_slot_bits in Hb as [Hb | [-> _]]; [| contradiction].
    exact (Hbits j s1 i Hs1 Hi Hb).
  - intros i Hi. destruct (Hheld i Hi) as (Hpeer & s & Hs & Hb).
    split; [exact Hpeer |]. eexists. split.
    + rewrite slot_at_published by lia. rewrite Hs. reflexivity.
    + unfold publish_slot.
      destruct (Z.eqb_spec (locked_message_handle_ (f i)) k) as [Heq|_].
      { exfalso. rewrite Heq, Hs0 in Hs. injection Hs as <-.
        rewrite H0, Z.bits_0 in Hb. discriminate. }
      destruct (_ && _); [| exact Hb].
      simpl. unfold used_by_writer.
      rewrite testbit_clear by (destruct Hpeer; lia).
      rewrite Hb. destruct (Z.eqb_spec 31 i); [destruct Hpeer; lia | reflexivity].
Qed.

Lemma consistent_writer_reset (N : nat) (P : Z) (c : SharedDataContainer)
    (f : Z -> Consumer) :
  (N <= 31)%nat ->
  region_consistent N P (mkRegion c f) ->
  region_consistent N P
    (mkRegion (alter_range (reset_writer_slot (current_slot_id_ c)) 0
                 (length (slots c)) c) f).
Proof.
  intros HN (Hwf & Hmark & Hidx & Hbits & Hheld).
  unfold region_consistent. cbn [shared consumer_of] in *.
  assert (Ht : touched N c (alter_range (reset_writer_slot (current_slot_id_ c)) 0
                              (length (slots c)) c))
    by apply touched_writer_reset.
  split; [exact (touched_well_formed N _ _ HN Hwf Ht) |].
  split; [exact (touched_writer_mark N _ _ Hwf Hmark Ht) |].
  split; [exact Hidx |].
  split.
  - intros j s' i Hs' Hi Hb.
    rewrite slot_at_alter_all in Hs'.
    apply fmap_Some_inv in Hs' as (s0 & Hs0 & ->).
    exact (Hbits j s0 i Hs0 Hi (reset_writer_slot_bits _ _ _ _ Hb)).
  - intros i Hi. destruct (Hheld i Hi) as (Hpeer & s & Hs & Hb).
    split; [exact Hpeer |]. eexists. split.
    + rewrite slot_at_alter_all, Hs. reflexivity.
    + rewrite testbit_reset_writer_other by (destruct Hpeer; lia). exact Hb.
Qed.

Lemma fresh_region_consistent (N : nat) (P : Z) :
  region_consistent N P (fresh_region N P).
Proof.
  unfold region_consistent, fresh_region. cbn [shared consumer_of].
  split; [apply well_formed_zero |].
  split; [apply writer_mark_zero |].
  split; [reflexivity |].
  split.
  - intros j s i Hs _ Hb. exfalso.
    apply slot_at_zero_container in Hs as ->.
    simpl in Hb. rewrite Z.bits_0 in Hb. discriminate.
  - intros q Hq. simpl in Hq. contradiction.
Qed.

Lemma region_step_consistent (N : nat) (P : Z) (r r' : region) :
  (N <= 31)%nat ->
  region_consistent N P r ->
  region_step N P r r' ->
  region_consistent N P r'.
Proof.
  intros HN Hinv Hstep. destruct r as [c f].
  pose proof Hinv as (Hwf & Hmark & Hidx & Hbits & Hheld).
  cbn [shared consumer_of] in *.
  destruct Hstep as [q k c' Hq Hrun | q b c' Hq Hrun
                    | b q msg k c' Hq Hrun | b q what c' Hq Hrun
                    | q k c' Hq Hrun | q what c' Hq Hrun
                    | c' Hrun | msg c' Hrun];
    cbn [shared consumer_of] in *.
  - (* Consumer attach *)
    rewrite Consumer_attach_run in Hrun by (destruct Hq; lia).
    injection Hrun as <- <-. apply consistent_reader_reset; assumption.
  - (* HasMessage *)
    rewrite HasMessage_run in Hrun. injection Hrun as _ <-. exact Hinv.
  - (* LockMessage returns *)
    destruct (Z.eq_dec (locked_message_handle_ (f q)) (-1)) as [Hfree|Hholds].
    2: { rewrite LockMessage_holding in Hrun by exact Hholds. discriminate. }
    destruct (proj2 Hwf) as [H0 | (s & Hs & Hw)].
    { rewrite LockMessage_empty in Hrun by assumption. discriminate. }
    pose proof (slot_at_Some_bounds _ _ _ Hs) as Hb.
    rewrite (LockMessage_owned b (f q) c s) in Hrun;
      try assumption; try (rewrite Hidx; destruct Hq; lia); try lia.
    rewrite Hidx in Hrun.
    destruct (b && Z.testbit (used_by s) q); [discriminate |].
    injection Hrun as _ <- <-.
    apply consistent_pin; try assumption; lia.
  - (* LockMessage throws *)
    assert (c' = c) as ->; [| exact Hinv].
    destruct (Z.eq_dec (locked_message_handle_ (f q)) (-1)) as [Hfree|Hholds].
    2: { rewrite LockMessage_holding in Hrun by exact Hholds.
         injection Hrun as _ <-. reflexivity. }
    destruct (proj2 Hwf) as [H0 | (s & Hs & Hw)].
    { rewrite LockMessage_empty in Hrun by assumption.
      injection Hrun as _ <-. reflexivity. }
    pose proof (slot_at_Some_bounds _ _ _ Hs) as Hb.
    rewrite (LockMessage_owned b (f q) c s) in Hrun;
      try assumption; try (rewrite Hidx; destruct Hq; lia); try lia.
    destruct (b && Z.testbit (used_by s) (process_index_ (f q)));
      [| discriminate].
    injection Hrun as _ <-. reflexivity.
  - (* UnlockMessage returns *)
    destruct (Z.eq_dec (locked_message_handle_ (f q)) (-1)) as [Hfree|Hholds].
    { rewrite UnlockMessage_not_holding in Hrun by exact Hfree. discriminate. }
    destruct (Hheld q Hholds) as (_ & s & Hs & Hbit).
    rewrite (UnlockMessage_holding (f q) c s) in Hrun;
      try assumption; try (rewrite Hidx; destruct Hq; lia).
    rewrite Hidx, Hbit in Hrun. injection Hrun as <- <-.
    apply consistent_unpin; assumption.
  - (* UnlockMessage throws *)
    assert (c' = c) as ->; [| exact Hinv].
    destruct (Z.eq_dec (locked_message_handle_ (f q)) (-1)) as [Hfree|Hholds].
    { rewrite UnlockMessage_not_holding in Hrun by exact Hfree.
      injection Hrun as _ <-. reflexivity. }
    destruct (Hheld q Hholds) as (_ & s & Hs & Hbit).
    rewrite (UnlockMessage_holding (f q) c s) in Hrun;
      try assumption; try (rewrite Hidx; destruct Hq; lia).
    rewrite Hidx, Hbit in Hrun. discriminate.
  - (* Producer attach *)
    unfold Producer_attach in Hrun. rewrite WriterReset_run in Hrun.
    injection Hrun as <-. apply consistent_writer_reset; assumption.
  - (* UpdateMessage *)
    unfold Producer_UpdateMessage in Hrun.
    destruct (find_free_slot_cases c) as [(n & Hn & _) | [Hfull _]].
    + rewrite (WriterUpdateMessage_free msg c n Hn) in Hrun.
      destruct (_ && _).
      * destruct Hrun as [H | [w H]]; discriminate H.
      * leaves_inv Hrun. apply consistent_published; assumption.
    + rewrite WriterUpdateMessage_full in Hrun by exact Hfull.
      leaves_inv Hrun. exact Hinv.
Qed.

Lemma reachable_region_consistent (N : nat) (P : Z) (r : region) :
  (N <= 31)%nat -> reachable_region N P r -> region_consistent N P r.
Proof.
  intros HN Hreach. induction Hreach as [| r r' _ IH Hstep].
  - apply fresh_region_consistent.
  - exact (region_step_consistent N P r r' HN IH Hstep).
Qed.

(** A finished call never changes the message of a slot whose state word is
    nonzero. *)
Lemma touched_keeps_message (N : nat) (c c' : SharedDataContainer)
    (j : Z) (s : Slot) :
  well_formed N c -> touched N c c' ->
  slot_at c j = Some s -> used_by s <> 0 ->
  exists s', slot_at c' j = Some s' /\ message s' = message s.
Proof.
  intros Hwf Ht Hs Hn0.
  destruct Ht as [| p Hp Hid | p h Hp Hh | p Hp | k msg Hk |].
  - exists s. split; [exact Hs | reflexivity].
  - destruct (proj2 Hwf) as [H0 | (sc & Hsc & _)]; [contradiction |].
    eexists. split.
    + rewrite slot_at_pin by (rewrite Hsc; discriminate). rewrite Hs. reflexivity.
    + destruct (_ =? _); reflexivity.
  - eexists. split.
    + rewrite slot_at_unpin by exact Hh. rewrite Hs. reflexivity.
    + destruct (_ =? _); reflexivity.
  - eexists. split; [rewrite slot_at_alter_all, Hs; reflexivity |].
    unfold reset_reader_slot. destruct (Z.testbit _ _); reflexivity.
  - destruct Hk as [(s0 & Hs0 & H0) _].
    pose proof (slot_at_Some_bounds _ _ _ Hs0).
    eexists. split; [rewrite slot_at_published by lia; rewrite Hs; reflexivity |].
    unfold publish_slot. destruct (Z.eqb_spec j k) as [->|_].
    + exfalso. rewrite Hs0 in Hs. injection Hs as <-. contradiction.
    + destruct (_ && _); reflexivity.
  - eexists. split; [rewrite slot_at_alter_all, Hs; reflexivity |].
    unfold reset_writer_slot. destruct (_ && _); reflexivity.
Qed.

(** X12: whatever calls come before, no call changes the message of a slot
    whose state word is nonzero: a slot that is pinned or current keeps its
    message. *)
Theorem used_slot_keeps_its_message
    (N : nat) (k : call) (c c' : SharedDataContainer) (j : Z) (s : Slot) :
  (N <= 31)%nat ->
  reachable N c ->
  process_index_ok N k ->
  leaves (perform k c) c' ->
  slot_at c j = Some s ->
  used_by s <> 0 ->
  exists s', slot_at c' j = Some s' /\ message s' = message s.
Proof.
  intros HN Hreach Hk Hleaves Hs Hn0.
  pose proof (reachable_well_formed N c HN Hreach) as Hwf.
  apply (touched_keeps_message N c c' j s Hwf); try assumption.
  exact (leaves_touched N k c c' HN Hwf Hk Hleaves).
Qed.

Lemma region_step_touched (N : nat) (P : Z) (r r' : region) :
  (N <= 31)%nat ->
  region_consistent N P r ->
  region_step N P r r' ->
  touched N (shared r) (shared r').
Proof.
  intros HN (Hwf & Hmark & Hidx & Hbits & Hheld) Hstep.
  destruct Hstep as [q k c' Hq Hrun | q b c' Hq Hrun
                    | b q msg k c' Hq Hrun | b q what c' Hq Hrun
                    | q k c' Hq Hrun | q what c' Hq Hrun
                    | c' Hrun | msg c' Hrun];
    cbn [shared consumer_of] in *.
  - rewrite Consumer_attach_run in Hrun by (destruct Hq; lia).
    injection Hrun as _ <-. apply touched_reader_reset. apply Hq.
  - rewrite HasMessage_run in Hrun. injection Hrun as _ <-. constructor.
  - destruct (Z.eq_dec (locked_message_handle_ (consumer_of r q)) (-1))
      as [Hfree|Hholds].
    2: { rewrite LockMessage_holding in Hrun by exact Hholds. discriminate. }
    destruct (proj2 Hwf) as [H0 | (s & Hs & Hw)].
    { rewrite LockMessage_empty in Hrun by assumption. discriminate. }
    pose proof (slot_at_Some_bounds _ _ _ Hs) as Hb.
    rewrite (LockMessage_owned b (consumer_of r q) (shared r) s) in Hrun;
      try assumption; try (rewrite Hidx; destruct Hq; lia); try lia.
    rewrite Hidx in Hrun.
    destruct (b && Z.testbit (used_by s) q); [discriminate |].
    injection Hrun as _ _ <-. apply touched_pin; [apply Hq | lia].
  - assert (c' = shared r) as ->; [| constructor].
    destruct (Z.eq_dec (locked_message_handle_ (consumer_of r q)) (-1))
      as [Hfree|Hholds].
    2: { rewrite LockMessage_holding in Hrun by exact Hholds.
         injection Hrun as _ <-. reflexivity. }
    destruct (proj2 Hwf) as [H0 | (s & Hs & Hw)].
    { rewrite LockMessage_empty in Hrun by assumption.
      injection Hrun as _ <-. reflexivity. }
    pose proof (slot_at_Some_bounds _ _ _ Hs) as Hb.
    rewrite (LockMessage_owned b (consumer_of r q) (shared r) s) in Hrun;
      try assumption; try (rewrite Hidx; destruct Hq; lia); try lia.
    destruct (b && Z.testbit (used_by s) (process_index_ (consumer_of r q)));
      [| discriminate].
    injection Hrun as _ <-. reflexivity.
  - destruct (Z.eq_dec (locked_message_handle_ (consumer_of r q)) (-1))
      as [Hfree|Hholds].
    { rewrite UnlockMessage_not_holding in Hrun by exact Hfree. discriminate. }
    destruct (Hheld q Hholds) as (_ & s & Hs & Hbit).
    rewrite (UnlockMessage_holding (consumer_of r q) (shared r) s) in Hrun;
      try assumption; try (rewrite Hidx; destruct Hq; lia).
    rewrite Hidx, Hbit in Hrun. injection Hrun as _ <-.
    apply touched_unpin; [apply Hq | rewrite Hs; discriminate].
  - assert (c' = shared r) as ->; [| constructor].
    destruct (Z.eq_dec (locked_message_handle_ (consumer_of r q)) (-1))
      as [Hfree|Hholds].
    { rewrite UnlockMessage_not_holding in Hrun by exact Hfree.
      injection Hrun as _ <-. reflexivity. }
    destruct (Hheld q Hholds) as (_ & s & Hs & Hbit).
    rewrite (UnlockMessage_holding (consumer_of r q) (shared r) s) in Hrun;
      try assumption; try (rewrite Hidx; destruct Hq; lia).
    rewrite Hidx, Hbit in Hrun. discriminate.
  - unfold Producer_attach in Hrun. rewrite WriterReset_run in Hrun.
    injection Hrun as <-. apply touched_writer_reset.
  - unfold Producer_UpdateMessage in Hrun.
    destruct (find_free_slot_cases (shared r)) as [(n & Hn & _) | [Hfull _]].
    + rewrite (WriterUpdateMessage_free msg (shared r) n Hn) in Hrun.
      destruct (_ && _).
      * destruct Hrun as [H | [w H]]; discriminate H.
      * leaves_inv Hrun. apply touched_published. exact Hn.
    + rewrite WriterUpdateMessage_full in Hrun by exact Hfull.
      leaves_inv Hrun. constructor.
Qed.

(** X13: the message a consumer has locked is safe: while the consumer of
    process [q] holds the handle [h], no adapter call of any process, the
    writes of the producer included, changes the message of slot [h]. *)
Theorem locked_message_is_stable
    (N : nat) (P q : Z) (r r' : region) (s : Slot) :
  (N <= 31)%nat ->
  reachable_region N P r ->
  region_step N P r r' ->
  locked_message_handle_ (consumer_of r q) <> -1 ->
  slot_at (shared r) (locked_message_handle_ (consumer_of r q)) = Some s ->
  exists s',
    slot_at (shared r') (locked_message_handle_ (consumer_of r q)) = Some s' /\
    message s' = message s.
Proof.
  intros HN Hreach Hstep Hholds Hs.
  pose proof (reachable_region_consistent N P r HN Hreach) as Hinv.
  pose proof (region_step_touched N P r r' HN Hinv Hstep) as Ht.
  destruct Hinv as (Hwf & _ & _ & _ & Hheld).
  destruct (Hheld q Hholds) as (_ & s0 & Hs0 & Hbit).
  rewrite Hs in Hs0. injection Hs0 as <-.
  apply (touched_keeps_message N _ _ _ s Hwf Ht Hs).
  exact (testbit_nonzero _ _ Hbit).
Qed.

(** X14: used through the adapters, the container always has a slot for the
    writer: in every region that adapter calls of the producer [P] and its
    peers make of the zero-filled one, [Producer::UpdateMessage] returns; it
    never throws the no-free-slot error. *)
Theorem region_writer_always_finds_a_slot
    (N : nat) (P : Z) (r : region) (msg : Message) :
  (N <= 31)%nat ->
  0 <= P < Z.of_nat N ->
  reachable_region N P r ->
  exists c', Producer_UpdateMessage msg (shared r) = Returns tt c'.
Proof.
  intros HN HP Hreach.
  destruct (reachable_region_consistent N P r HN Hreach)
    as (Hwf & Hmark & _ & Hbits & _).
  set (c := shared r) in *.
  set (holder := fun i => if i =? P then current_slot_id_ c - 1
                          else locked_message_handle_ (consumer_of r i)).
  destruct (index_outside (holder <$> (Z.of_nat <$> seq 0 N)) (S N))
    as (j & Hj & Hout).
  { rewrite !length_fmap, length_seq. lia. }
  assert (Hholder : forall i, 0 <= i < Z.of_nat N -> holder i <> j).
  { intros i Hi Heq. apply Hout. apply list_elem_of_fmap.
    exists i. split; [symmetry; exact Heq |].
    apply list_elem_of_fmap. exists (Z.to_nat i).
    split; [lia | apply elem_of_seq; lia]. }
  destruct (slot_at_in_bounds c j) as [s Hs]; [rewrite (proj1 Hwf); lia |].
  assert (H0 : used_by s = 0).
  { apply Z.bits_inj'. intros i _. rewrite Z.bits_0.
    destruct (Z.testbit (used_by s) i) eqn:Hb; [exfalso | reflexivity].
    destruct (Z.eq_dec i 31) as [->|Hne].
    - apply (Hholder P HP). unfold holder. rewrite Z.eqb_refl.
      symmetry. exact (Hmark j s Hs Hb).
    - destruct (Hbits j s i Hs Hne Hb) as [[Hi HiP] Hhandle].
      apply (Hholder i Hi). unfold holder.
      destruct (Z.eqb_spec i P); [contradiction | exact Hhandle]. }
  destruct (WriterUpdateMessage_returns_when_free msg c) as (k & _ & Hrun).
  - exact (slot_at_free_Exists c j s Hs H0).
  - pose proof (current_slot_owned_bounds c (proj2 Hwf)). lia.
  - exists (published k msg c). exact Hrun.
Qed.

(** X15: through the adapters a process pins one slot at a time: in a
    reachable region a reader bit is set only for a peer of the producer, and
    only on the slot that the consumer of that peer holds as its handle; so
    no reader bit is set on two slots. *)
Theorem region_one_pin_per_process
    (N : nat) (P q : Z) (r : region) (j1 j2 : Z) (s1 s2 : Slot) :
  (N <= 31)%nat ->
  reachable_region N P r ->
  q <> 31 ->
  slot_at (shared r) j1 = Some s1 -> Z.testbit (used_by s1) q = true ->
  slot_at (shared r) j2 = Some s2 -> Z.testbit (used_by s2) q = true ->
  is_peer N P q /\
  locked_message_handle_ (consumer_of r q) = j1 /\
  j1 = j2.
Proof.
  intros HN Hreach Hq Hs1 Hb1 Hs2 Hb2.
  destruct (reachable_region_consistent N P r HN Hreach)
    as (_ & _ & _ & Hbits & _).
  destruct (Hbits j1 s1 q Hs1 Hq Hb1) as [Hpeer H1].
  destruct (Hbits j2 s2 q Hs2 Hq Hb2) as [_ H2].
  repeat split; try apply Hpeer; congruence.
Qed.

Lemma unpin_pin (p h : Z) (c : SharedDataContainer) (s : Slot) :
  0 <= p < 32 ->
  slot_at c h = Some s ->
  0 <= used_by s < 2 ^ 32 ->
  Z.testbit (used_by s) p = false ->
  unpin p h (pin p h c) = c.
Proof.
  intros Hp Hs Hu Hb.
  assert (Hh : slot_at c h <> None) by (rewrite Hs; discriminate).
  apply container_ext; [reflexivity |].
  intros j Hj. rewrite slot_at_unpin
    by (rewrite slot_at_pin by exact Hh; rewrite Hs; discriminate).
  rewrite slot_at_pin by exact Hh.
  destruct (Z.eqb_spec j h) as [->|Hne].
  - rewrite Hs. simpl. unfold with_used_by. simpl.
    rewrite clear_after_set by assumption. destruct s; reflexivity.
  - destruct (slot_at c j); reflexivity.
Qed.

(** In a consistent region the bit of a peer that holds no handle is set
    nowhere, and every state word is a 32-bit word. *)
Lemma consistent_free_peer_bit (N : nat) (P q j : Z) (r : region) (s : Slot) :
  region_consistent N P r ->
  q <> 31 ->
  locked_message_handle_ (consumer_of r q) = -1 ->
  slot_at (shared r) j = Some s ->
  Z.testbit (used_by s) q = false.
Proof.
  intros (_ & _ & _ & Hbits & _) Hq Hfree Hs.
  destruct (Z.testbit (used_by s) q) eqn:Hb; [exfalso | reflexivity].
  destruct (Hbits j s q Hs Hq Hb) as [_ Hhandle].
  apply slot_at_Some_bounds in Hs. lia.
Qed.

Lemma consistent_word32 (N : nat) (P j : Z) (r : region) (s : Slot) :
  (N <= 31)%nat ->
  region_consistent N P r ->
  slot_at (shared r) j = Some s ->
  0 <= used_by s < 2 ^ 32.
Proof.
  intros HN (_ & _ & _ & Hbits & _) Hs.
  apply word32_of_bits. intros i Hi.
  destruct (Z.testbit (used_by s) i) eqn:Hb; [exfalso | reflexivity].
  destruct (Hbits j s i Hs ltac:(lia) Hb) as [[Hlt _] _]. lia.
Qed.

(** X16: in a reachable region, [Consumer::LockMessage] of a peer that holds
    no handle, on a container that is not empty, returns the message of the
    current slot, sets the bit of the peer on that slot and takes its index
    as the handle.  The double-lock error of the container and the retry
    path of [ReaderLock] are not reached through the adapter. *)
Theorem region_LockMessage_returns_current_message
    (in_header : bool) (N : nat) (P q : Z) (r : region) :
  (N <= 31)%nat ->
  reachable_region N P r ->
  is_peer N P q ->
  locked_message_handle_ (consumer_of r q) = -1 ->
  current_slot_id_ (shared r) <> 0 ->
  exists s,
    slot_at (shared r) (current_slot_id_ (shared r) - 1) = Some s /\
    LockMessage in_header (consumer_of r q) (shared r) =
      Returns (message s,
               mkConsumer (producer_process_index (consumer_of r q))
                 (current_slot_id_ (shared r) - 1) q)
        (pin q (current_slot_id_ (shared r) - 1) (shared r)).
Proof.
  intros HN Hreach Hq Hfree Hid.
  pose proof (reachable_region_consistent N P r HN Hreach) as Hinv.
  pose proof Hinv as (Hwf & _ & Hidx & _ & _).
  destruct (proj2 Hwf) as [H0 | (s & Hs & Hw)]; [contradiction |].
  exists s. split; [exact Hs |].
  assert (Hq31 : q <> 31) by (destruct Hq; lia).
  rewrite (LockMessage_owned in_header (consumer_of r q) (shared r) s);
    try assumption; try (rewrite Hidx; destruct Hq; lia).
  rewrite Hidx.
  rewrite (consistent_free_peer_bit N P q _ r s Hinv Hq31 Hfree Hs).
  rewrite andb_false_r. reflexivity.
Qed.

(** X17: in a reachable region, [Consumer::UnlockMessage] of a peer that
    holds a handle returns: the handle names a slot of the array with the bit
    of the peer set, the bit is cleared and the handle given up.  The
    not-locked error of the container is not reached through the adapter. *)
Theorem region_UnlockMessage_returns
    (N : nat) (P q : Z) (r : region) :
  (N <= 31)%nat ->
  reachable_region N P r ->
  locked_message_handle_ (consumer_of r q) <> -1 ->
  is_peer N P q /\
  UnlockMessage (consumer_of r q) (shared r) =
    Returns (mkConsumer (producer_process_index (consumer_of r q)) (-1) q)
      (unpin q (locked_message_handle_ (consumer_of r q)) (shared r)).
Proof.
  intros HN Hreach Hholds.
  destruct (reachable_region_consistent N P r HN Hreach)
    as (_ & _ & Hidx & _ & Hheld).
  destruct (Hheld q Hholds) as (Hq & s & Hs & Hbit).
  split; [exact Hq |].
  rewrite (UnlockMessage_holding (consumer_of r q) (shared r) s);
    try assumption; try (rewrite Hidx; destruct Hq; lia).
  rewrite Hidx, Hbit. reflexivity.
Qed.

(** X18: one pass of the loop of [main] over a consumer that holds no
    handle, in a reachable region: it prints "empty" when nothing was
    written, else the value of the message of the current slot, and leaves
    the container and the consumer exactly as they were. *)
Theorem main_read_consumer_leaves_region
    (in_header : bool) (N : nat) (P q : Z) (r : region) :
  (N <= 31)%nat ->
  reachable_region N P r ->
  is_peer N P q ->
  locked_message_handle_ (consumer_of r q) = -1 ->
  exists printed,
    main_read_consumer in_header (consumer_of r q) (shared r)
      = Returns (printed, consumer_of r q) (shared r) /\
    (current_slot_id_ (shared r) = 0 -> printed = None) /\
    (forall s, current_slot_id_ (shared r) <> 0 ->
       slot_at (shared r) (current_slot_id_ (shared r) - 1) = Some s ->
       printed = Some (val (message s))).
Proof.
  intros HN Hreach Hq Hfree.
  pose proof (reachable_region_consistent N P r HN Hreach) as Hinv.
  pose proof Hinv as (Hwf & _ & Hidx & _ & _).
  assert (Hq31 : q <> 31) by (destruct Hq; lia).
  assert (Hq32 : 0 <= q < 32) by (destruct Hq; lia).
  unfold main_read_consumer. unfold bind at 1. rewrite HasMessage_run.
  destruct (proj2 Hwf) as [H0 | (s & Hs & Hw)].
  - exists None. rewrite H0. simpl. repeat split. intros s Hn0. contradiction.
  - pose proof (slot_at_Some_bounds _ _ _ Hs) as Hb.
    destruct (Z.eqb_spec (current_slot_id_ (shared r)) 0); [lia |]. simpl.
    exists (Some (val (message s))).
    split; [| split; [intros Hz; lia |]].
    2: { intros s' _ Hs'. rewrite Hs in Hs'. injection Hs' as <-. reflexivity. }
    pose proof (consistent_free_peer_bit N P q _ r s Hinv Hq31 Hfree Hs) as Hbit.
    unfold bind at 1.
    rewrite (LockMessage_owned in_header (consumer_of r q) (shared r) s);
      try assumption; try (rewrite Hidx; exact Hq32); try lia.
    rewrite Hidx, Hbit, andb_false_r.
    unfold bind. cbn [fst snd].
    rewrite (UnlockMessage_holding _ _
               (with_used_by (fun u => Z.lor u (Z.shiftl 1 q)) s)).
    + cbn [locked_message_handle_ process_index_ producer_process_index used_by
             with_used_by].
      rewrite testbit_set, Z.eqb_refl, orb_true_r by lia.
      rewrite (unpin_pin q _ (shared r) s); try assumption.
      * f_equal. f_equal.
        specialize (Hidx q). destruct (consumer_of r q) as [pp h pi].
        simpl in *. subst. reflexivity.
      * exact (consistent_word32 N P _ r s HN Hinv Hs).
    + cbn [locked_message_handle_]. lia.
    + cbn [process_index_]. exact Hq32.
    + cbn [locked_message_handle_].
      rewrite slot_at_pin by (rewrite Hs; discriminate).
      rewrite Hs, Z.eqb_refl. reflexivity.
Qed.

(** ** Instances of the further properties *)

Lemma reachable_region_written : reachable_region 3 0 region_written.
Proof.
  apply (reachable_step 3 0 (fresh_region 3 0) region_written).
  - apply reachable_fresh.
  - apply (step_update 3 0 (fresh_region 3 0) (mkMessage 10) written_once).
    left. reflexivity.
Defined.

Lemma is_peer_1 : is_peer 3 0 1.
Proof. split; lia. Defined.

Lemma reachable_region_locked : reachable_region 3 0 region_locked.
Proof.
  apply (reachable_step 3 0 region_written region_locked).
  - exact reachable_region_written.
  - apply (step_lock 3 0 region_written true 1 (mkMessage 10)
             (mkConsumer 0 0 1) (pin 1 0 written_once)).
    + exact is_peer_1.
    + reflexivity.
Defined.

Lemma written_once_owned : current_slot_owned written_once.
Proof. right. eexists. split; reflexivity. Defined.

Lemma written_once_free : Exists (fun s => used_by s = 0) (slots written_once).
Proof. apply Exists_cons_tl, Exists_cons_hd. reflexivity. Defined.

Lemma written_once_first_free : first_free_slot written_once 1.
Proof.
  split.
  - eexists. split; reflexivity.
  - intros j s Hj Hs. assert (j = 0) as -> by lia.
    injection Hs as <-. discriminate.
Defined.

Lemma word32_used_by_writer : 0 <= used_by_writer < 2 ^ 32.
Proof. split; [discriminate | reflexivity]. Defined.

Lemma ReaderLock_pins_witness :
  exists c', ReaderLock 0 written_once = Returns 0 c'.
Proof.
  destruct (ReaderLock_pins_current_slot true 0 written_once
              (mkSlot used_by_writer (mkMessage 10)))
    as (c' & s' & Hrun & _); try reflexivity; try lia; try discriminate.
  exists c'. exact Hrun.
Defined.


Lemma ReaderReset_witness :
  0 <= 0 < 32 /\
  exists c', ReaderReset 0 locked_by_two = Returns tt c'.
Proof.
  assert (H0 : 0 <= 0 < 32) by lia.
  split; [exact H0 |].
  destruct (ReaderReset_clears_own_bits 0 locked_by_two H0) as (c' & Hrun & _).
  exists c'. exact Hrun.
Defined.

Lemma round_trip_witness :
  (h <- ReaderLock 0 ;; ReaderUnlock 0 h) written_once = Returns tt written_once.
Proof.
  apply (ReaderLock_ReaderUnlock_round_trip true 0 written_once
           (mkSlot used_by_writer (mkMessage 10)));
    try reflexivity; try lia; try discriminate.
  exact word32_used_by_writer.
Defined.

Lemma words_witness :
  (3 <= 31)%nat /\ reachable 3 written_once /\
  0 <= used_by_writer < 2 ^ 32.
Proof.
  assert (H31 : (3 <= 31)%nat) by lia.
  split; [exact H31 |]. split; [exact reachable_written_once |].
  exact (proj1 (reachable_words_use_only_reader_and_writer_bits 3 written_once
                  H31 reachable_written_once 0
                  (mkSlot used_by_writer (mkMessage 10)) eq_refl)).
Defined.

Lemma writer_mark_witness :
  (3 <= 31)%nat /\ reachable 3 written_once /\
  WriterReset written_once = Returns tt written_once.
Proof.
  assert (H31 : (3 <= 31)%nat) by lia.
  split; [exact H31 |]. split; [exact reachable_written_once |].
  exact (proj2 (reachable_writer_mark_on_current_only 3 written_once H31
                  reachable_written_once)).
Defined.

Lemma never_empties_witness :
  IsEmpty (pin 0 0 written_once) = Returns false (pin 0 0 written_once).
Proof.
  apply (container_never_empties 3 (CallReaderLock true 0) written_once
           (pin 0 0 written_once)).
  - lia.
  - exact reachable_written_once.
  - simpl. lia.
  - left. reflexivity.
  - left. reflexivity.
Defined.

Lemma write_then_lock_witness :
  0 <= 0 < 31 /\ current_slot_owned written_once /\
  exists h c',
    (WriterUpdateMessage (mkMessage 20) ;;;
     h <- ReaderLock 0 ;; m <- ReaderGetMessage h ;; ret (h, m)) written_once
    = Returns (h, mkMessage 20) c'.
Proof.
  assert (H0 : 0 <= 0 < 31) by lia.
  split; [exact H0 |]. split; [exact written_once_owned |].
  destruct (write_then_lock_reads_the_message true 0 (mkMessage 20) written_once
              H0 written_once_owned written_once_free) as (h & c' & _ & Hrun).
  exists h, c'. exact Hrun.
Defined.

Lemma killed_after_publish_point_witness :
  (WriterUpdateMessage_killed KilledAfterCurrent (mkMessage 20) ;;;
   Producer_attach) written_once
  = WriterUpdateMessage (mkMessage 20) written_once.
Proof.
  apply killed_after_publish_point_recovers.
  - exact written_once_owned.
  - apply (reachable_writer_mark 3); [lia | exact reachable_written_once].
Defined.

Lemma killed_before_publish_point_witness :
  exists c',
    (WriterUpdateMessage_killed KilledAfterMark (mkMessage 20) ;;;
     Producer_attach) written_once = Returns tt c' /\
    current_slot_id_ c' = current_slot_id_ written_once.
Proof.
  destruct (killed_before_publish_point_recovers KilledAfterMark (mkMessage 20)
              written_once 1) as (c' & Hrun & Hcur & _).
  - discriminate.
  - exact written_once_owned.
  - apply (reachable_writer_mark 3); [lia | exact reachable_written_once].
  - exact written_once_first_free.
  - exists c'. split; assumption.
Defined.

Lemma used_slot_witness :
  exists s',
    slot_at (published 1 (mkMessage 20) written_once) 0 = Some s' /\
    message s' = mkMessage 10.
Proof.
  apply (used_slot_keeps_its_message 3 (CallWriterUpdateMessage (mkMessage 20))
           written_once (published 1 (mkMessage 20) written_once) 0
           (mkSlot used_by_writer (mkMessage 10))).
  - lia.
  - exact reachable_written_once.
  - exact I.
  - left. reflexivity.
  - reflexivity.
  - discriminate.
Defined.

Lemma locked_message_witness :
  exists s',
    slot_at (published 1 (mkMessage 20) (shared region_locked)) 0 = Some s' /\
    message s' = mkMessage 10.
Proof.
  apply (locked_message_is_stable 3 0 1 region_locked
           (mkRegion (published 1 (mkMessage 20) (shared region_locked))
              (consumer_of region_locked))
           (mkSlot (Z.lor used_by_writer 2) (mkMessage 10))).
  - lia.
  - exact reachable_region_locked.
  - apply (step_update 3 0 region_locked (mkMessage 20)). left. reflexivity.
  - discriminate.
  - reflexivity.
Defined.

Lemma writer_finds_slot_witness :
  (3 <= 31)%nat /\ 0 <= 0 < Z.of_nat 3 /\ reachable_region 3 0 region_locked /\
  exists c', Producer_UpdateMessage (mkMessage 20) (shared region_locked)
             = Returns tt c'.
Proof.
  assert (H31 : (3 <= 31)%nat) by lia.
  assert (HP : 0 <= 0 < Z.of_nat 3) by lia.
  split; [exact H31 |]. split; [exact HP |].
  split; [exact reachable_region_locked |].
  exact (region_writer_always_finds_a_slot 3 0 region_locked (mkMessage 20)
           H31 HP reachable_region_locked).
Defined.

Lemma one_pin_witness :
  is_peer 3 0 1 /\ locked_message_handle_ (consumer_of region_locked 1) = 0 /\
  0 = 0.
Proof.
  apply (region_one_pin_per_process 3 0 1 region_locked 0 0
           (mkSlot (Z.lor used_by_writer 2) (mkMessage 10))
           (mkSlot (Z.lor used_by_writer 2) (mkMessage 10)));
    try reflexivity; try lia; try discriminate.
  exact reachable_region_locked.
Defined.

Lemma region_LockMessage_witness :
  exists s,
    slot_at (shared region_written) (current_slot_id_ (shared region_written) - 1)
      = Some s /\
    LockMessage true (consumer_of region_written 1) (shared region_written) =
      Returns (message s, mkConsumer 0 0 1) (pin 1 0 written_once).
Proof.
  apply (region_LockMessage_returns_current_message true 3 0 1 region_written).
  - lia.
  - exact reachable_region_written.
  - exact is_peer_1.
  - reflexivity.
  - discriminate.
Defined.

Lemma region_UnlockMessage_witness :
  is_peer 3 0 1 /\
  UnlockMessage (consumer_of region_locked 1) (shared region_locked) =
    Returns (mkConsumer 0 (-1) 1) (unpin 1 0 (shared region_locked)).
Proof.
  apply (region_UnlockMessage_returns 3 0 1 region_locked).
  - lia.
  - exact reachable_region_locked.
  - discriminate.
Defined.

Lemma main_read_consumer_witness :
  exists printed,
    main_read_consumer true (consumer_of region_written 1) (shared region_written)
      = Returns (printed, consumer_of region_written 1) (shared region_written).
Proof.
  destruct (main_read_consumer_leaves_region true 3 0 1 region_written)
    as (printed & Hrun & _).
  - lia.
  - exact reachable_region_written.
  - exact is_peer_1.
  - reflexivity.
  - exists printed. exact Hrun.
Defined.

(** ** The retry path of [ReaderLock] *)



(** X4: [ReaderLock] of [shared_data_container.h] refuses a second lock of
    the same slot by the same process: on a current slot that carries the
    writer mark and already the bit of [p] it throws the double-lock error,
    and the container is as before, so that the lock held is not lost: a
    [ReaderUnlock] of that slot by [p] still returns. *)
Theorem ReaderLock_header_throws_double_lock
    (p : Z) (c : SharedDataContainer) (s : Slot) :
  0 <= p < 32 ->
  current_slot_id_ c <> 0 ->
  slot_at c (current_slot_id_ c - 1) = Some s ->
  Z.testbit (used_by s) 31 = true ->
  Z.testbit (used_by s) p = true ->
  ReaderLock p c = Throws DOUBLE_LOCK c /\
  exists c', ReaderUnlock p (current_slot_id_ c - 1) c = Returns tt c'.
Proof.
  intros Hp Hid Hs Hw Hb. split.
  - unfold ReaderLock.
    rewrite (ReaderLock_with_owned true p c s) by assumption.
    rewrite Hb. reflexivity.
  - eexists. rewrite (ReaderUnlock_run p _ c s) by assumption.
    rewrite Hb. reflexivity.
Qed.

Lemma ReaderLock_header_witness :
  ReaderLock 0 locked_once = Throws DOUBLE_LOCK locked_once /\
  exists c', ReaderUnlock 0 (current_slot_id_ locked_once - 1) locked_once
             = Returns tt c'.
Proof.
  apply (ReaderLock_header_throws_double_lock 0 locked_once
           (mkSlot (Z.lor used_by_writer 1) (mkMessage 5)));
    try reflexivity; try lia; try discriminate.
Defined.

(** X19: the argument check of [main], for an index that fits an [int]:
    [main] returns 1 exactly when the argument is missing, the index is
    negative (it compares as a large [unsigned]) or the index is greater
    than the number of processes; in every other case, the index equal to
    the number of processes included, it goes on with that index. *)
Theorem main_startup_exit_condition (N argc parsed : Z) :
  0 <= N < 2 ^ 31 -> - 2 ^ 31 <= parsed < 2 ^ 31 ->
  (main_startup N argc parsed = Exit 1
     <-> argc < 2 \/ parsed < 0 \/ N < parsed) /\
  (main_startup N argc parsed = Runs parsed
     <-> 2 <= argc /\ 0 <= parsed <= N).
Proof.
  intros HN Hp. rewrite (main_startup_exits N argc parsed HN Hp).
  destruct (Z.ltb_spec argc 2), (Z.ltb_spec parsed 0), (Z.ltb_spec N parsed);
    simpl; split; split; intros H'; try discriminate; try reflexivity; lia.
Qed.

Lemma main_startup_witness :
  0 <= 3 < 2 ^ 31 /\ - 2 ^ 31 <= -1 < 2 ^ 31 /\
  main_startup 3 2 (-1) = Exit 1.
Proof.
  assert (HN : 0 <= 3 < 2 ^ 31) by lia.
  assert (Hp : - 2 ^ 31 <= -1 < 2 ^ 31) by lia.
  split; [exact HN |]. split; [exact Hp |].
  apply (main_startup_exit_condition 3 2 (-1) HN Hp). lia.
Defined.
